(** * Group membership authority of NodeBB's API layer ([src/api/groups])

    A shallow embedding of the seven asynchronous operations of the groups
    API ([create], [update], [delete], [join], [leave], [grant], [rescind])
    and of their shared [isOwner] gate, followed by the properties the
    specification states about them.

    The operations are JavaScript [async] functions that talk to
    collaborating modules ([groups], [user], [privileges], [events],
    [notifications], [meta]).  They are embedded as finite programs over a
    signature of collaborator calls; a handler gives the calls a meaning
    over a world, and running a program yields its call log, its result and
    the final world.  What the language's built-ins make of an identifier
    (its comparison with 0, [parseInt], its conversion to a string) is
    taken from the runtime.  The properties are stated for every handler,
    every world and every runtime; a reference implementation of the
    collaborators, written from the spec, and a runtime for integer
    identifiers provide concrete runs. *)

From stdpp Require Import base option strings gmap list.
From Stdlib Require Import ZArith Lia Ascii String DecimalString.

Local Open Scope string_scope.
Local Open Scope Z_scope.

(** ** JavaScript values

    The fragment of JavaScript values the API inspects.  Of the numbers it
    has the integer-valued ones, [JNum n] being the number whose value is
    the integer [n], and [JNaN], the not-a-number value: identifiers are
    integers or strings.  A string stands for the JavaScript string of which
    it is the UTF-8 encoding. *)

Inductive JsVal : Type :=
| JUndefined
| JNull
| JBool (b : bool)
| JNum (n : Z)
| JNaN
| JStr (s : string).

#[global] Instance JsVal_eq_dec : EqDecision JsVal.
Proof. solve_decision. Defined.

(** [!v] is [negb (truthy v)]. *)
Definition truthy (v : JsVal) : bool :=
  match v with
  | JUndefined | JNull | JNaN => false
  | JBool b => b
  | JNum n => negb (n =? 0)
  | JStr s => negb (String.eqb s "")
  end.

(** [typeof v === 'string'] *)
Definition typeof_string (v : JsVal) : bool :=
  match v with JStr _ => true | _ => false end.

(** [a === b] where one side is a string literal. *)
Definition strict_eq_string (v : JsVal) (lit : string) : bool :=
  match v with JStr s => String.eqb s lit | _ => false end.

(** [arr.includes(v)] on an array of strings. *)
Definition includes (arr : list string) (v : JsVal) : bool :=
  match v with
  | JStr s => existsb (String.eqb s) arr
  | _ => false
  end.

(** ** Numbers and the built-ins of the runtime

    The API applies three built-ins of the language to the identifiers it
    is given: the comparison [v <= 0], [parseInt(v, 10)] and the conversion
    to a string of a template literal.  Their action on [null],
    [undefined], booleans, NaN and integer-valued numbers is written out
    below.  How a string converts to a number, how a string is parsed and
    how a number prints belong to the runtime ([Runtime]); the operations
    and every property of them are stated for every runtime, that of
    JavaScript among them. *)

(** The numbers [parseInt] returns: NaN, an integer-valued number, or an
    infinity.  The two zeros are one number here: the API compares the
    results with [===] only, and [-0 === 0]. *)
Inductive JsNumber : Type :=
| NaN
| Finite (n : Z)
| Infinite (negative : bool).

(** [a === b] on numbers: NaN differs from everything, itself included. *)
Definition number_strict_eq (a b : JsNumber) : bool :=
  match a, b with
  | Finite x, Finite y => x =? y
  | Infinite s, Infinite t => Bool.eqb s t
  | _, _ => false
  end.

Record Runtime : Type :=
  { (** [String(n)] for the number whose value is the integer [n] *)
    number_toString : Z → string;
    (** [s <= 0] for a string [s]: the string is converted to a number,
        which is compared with 0 *)
    string_le_zero : string → bool;
    (** [parseInt(s, 10)] for a string [s] *)
    string_parseInt10 : string → JsNumber }.

Section Builtins.
Context (rt : Runtime).

(** [ToString], as used by template literals and by [parseInt]. *)
Definition js_toString (v : JsVal) : string :=
  match v with
  | JUndefined => "undefined"
  | JNull => "null"
  | JBool true => "true"
  | JBool false => "false"
  | JNum n => number_toString rt n
  | JNaN => "NaN"
  | JStr s => s
  end.

(** [v <= 0]: the operand is converted to a number, [null] to 0, [true] to
    1, [false] to 0, [undefined] to NaN; a comparison with NaN is false. *)
Definition le_zero (v : JsVal) : bool :=
  match v with
  | JUndefined | JNaN => false
  | JNull => true
  | JBool b => negb b
  | JNum n => n <=? 0
  | JStr s => string_le_zero rt s
  end.

(** [parseInt(v, 10)]: the argument is converted to a string, which is
    parsed. *)
Definition parseInt10 (v : JsVal) : JsNumber :=
  string_parseInt10 rt (js_toString v).

(** [parseInt(a, 10) === parseInt(b, 10)], the test both [join] and [leave]
    call [isSelf]. *)
Definition same_parsed_uid (a b : JsVal) : bool :=
  number_strict_eq (parseInt10 a) (parseInt10 b).
End Builtins.

(** ** A runtime for integer identifiers

    An executable runtime, for running the operations on concrete
    requests.  It handles integers and their decimal numerals: a number
    prints as its decimal numeral, a string converts to a number when it is
    an integer numeral between ASCII white space, and parsing reads an
    optional sign and decimal digits after ASCII white space.  It is not
    the runtime of JavaScript, with which it agrees on the identifiers of
    the sample runs, integers of a few digits and their numerals.  The
    properties of the operations are stated for every runtime; this one
    serves the sample runs. *)

Module IntegerRuntime.
Definition digit_of (c : ascii) : option Z :=
  let n := Z.of_N (N_of_ascii c) in
  if (48 <=? n) && (n <=? 57) then Some (n - 48) else None.

(** White space and line terminators of the ASCII range. *)
Definition is_space (c : ascii) : bool :=
  let n := Z.of_N (N_of_ascii c) in
  ((9 <=? n) && (n <=? 13)) || (n =? 32).

Fixpoint skip_spaces (s : string) : string :=
  match s with
  | String c s' => if is_space c then skip_spaces s' else s
  | EmptyString => s
  end.

(** The value of the longest prefix of decimal digits and the rest of the
    string; [None] when [s] does not start with a digit. *)
Fixpoint digits_prefix (acc : option Z) (s : string) : option Z * string :=
  match s with
  | String c s' =>
      match digit_of c with
      | Some d => digits_prefix (Some (10 * default 0 acc + d)) s'
      | None => (acc, s)
      end
  | EmptyString => (acc, s)
  end.

Definition strip_sign (s : string) : Z * string :=
  match s with
  | String "-" s' => (-1, s')
  | String "+" s' => (1, s')
  | _ => (1, s)
  end.

Definition number_toString (n : Z) : string :=
  NilZero.string_of_int (Z.to_int n).

(** Leading white space is skipped, an optional sign is read and then the
    longest prefix of decimal digits; without a digit the result is NaN. *)
Definition string_parseInt10 (s : string) : JsNumber :=
  let '(sign, rest) := strip_sign (skip_spaces s) in
  match (digits_prefix None rest).1 with
  | Some n => Finite (sign * n)
  | None => NaN
  end.

(** Surrounding white space is ignored, the empty string is 0, a signed
    run of decimal digits is its value; every other string is NaN. *)
Definition string_toNumber (s : string) : option Z :=
  match skip_spaces s with
  | EmptyString => Some 0
  | s1 =>
      let '(sign, rest) := strip_sign s1 in
      match digits_prefix None rest with
      | (Some n, tl) =>
          match skip_spaces tl with
          | EmptyString => Some (sign * n)
          | _ => None
          end
      | (None, _) => None
      end
  end.

Definition string_le_zero (s : string) : bool :=
  match string_toNumber s with
  | Some n => n <=? 0
  | None => false
  end.

Definition runtime : Runtime :=
  Build_Runtime number_toString string_le_zero string_parseInt10.
End IntegerRuntime.

(** ** Data of the API *)

(** [interface Caller { uid: number | string; ip: string }] *)
Module Caller.
Record t : Type := mk { uid : JsVal; ip : JsVal }.
End Caller.

(** [interface Data { name; ownerUid; system; slug; uid }].  The fields hold
    whatever the request carried, so each is a JavaScript value; an absent
    field is [JUndefined]. *)
Module Data.
Record t : Type :=
  mk { name : JsVal; ownerUid : JsVal; system : JsVal; slug : JsVal; uid : JsVal }.

Definition set_ownerUid (v : JsVal) (d : t) : t :=
  mk (name d) v (system d) (slug d) (uid d).
Definition set_system (v : JsVal) (d : t) : t :=
  mk (name d) (ownerUid d) v (slug d) (uid d).
(** [delete data.slug] *)
Definition delete_slug (d : t) : t :=
  mk (name d) (ownerUid d) (system d) JUndefined (uid d).
End Data.

(** Modelled from the spec: the type [GroupDataObject] is declared in
    [src/types/group], which is not among the sources.  The record has the
    fields of the spec's GroupRecord that the API reads ([system],
    [private], [disableJoinRequests], [disableLeave]) and those the spec
    has a created group looked up for ([name], [slug], [ownerUid]).  A
    lookup always yields a record: [GroupDirectory.getConfig(groupName) ->
    GroupRecord] (section 6). *)
Module GroupData.
Record t : Type :=
  mk { name : JsVal; slug : JsVal; ownerUid : JsVal; system : bool;
       private : bool; disableJoinRequests : bool; disableLeave : bool }.
End GroupData.

(** The object [logGroupEvent] hands to [events.log]:
    [{ type: event, uid: caller.uid, ip: caller.ip, ...additional }]. *)
Module AuditRecord.
Record t : Type :=
  mk { type : string; uid : JsVal; ip : JsVal;
       groupName : JsVal; targetUid : option JsVal }.
End AuditRecord.

(** The [additional] argument of [logGroupEvent]: [{ groupName }] or
    [{ groupName, targetUid }]. *)
Module Additional.
Record t : Type := mk { groupName : JsVal; targetUid : option JsVal }.
End Additional.

(** The object [leave] hands to [notifications.create]. *)
Module Notification.
Record t : Type :=
  mk { type : string; bodyShort : string; nid : string; path : string;
       from : JsVal }.
End Notification.

(** The object [user.getUserFields] resolves to, of which [leave] reads
    [displayname]. *)
Module UserFields.
Record t : Type := mk { displayname : JsVal }.
End UserFields.

(** ** Failures *)

(** The nine typed errors the API itself throws,
    [new Error('[[error:...]]')]. *)
Inductive Error : Type :=
| invalid_data
| invalid_group_name
| invalid_uid
| no_group
| no_privileges
| not_allowed
| group_join_disabled
| group_leave_disabled
| cant_remove_self_as_admin.

#[global] Instance Error_eq_dec : EqDecision Error.
Proof. solve_decision. Defined.

(** What a call of the API can reject with: one of its own typed errors, the
    [TypeError] JavaScript raises when a property of an absent payload is
    read, or a failure of a collaborator.  The collaborating modules are not
    among the sources; following section 7 of the spec their failures
    "propagate as their own failure kind", apart from the nine typed
    errors. *)
Inductive Failure : Type :=
| Typed (e : Error)
| TypeError
| Collaborator (reason : string).

#[global] Instance Failure_eq_dec : EqDecision Failure.
Proof. solve_decision. Defined.

(** ** Collaborator calls

    Read-only lookups are queries; calls that write (to the group
    directory, the audit log or the notification store) are commands. *)

Inductive Query : Type :=
| privileges_admin_can (privilege : string) (uid : JsVal)
| privileges_global_can (privilege : string) (uid : JsVal)
| user_isGlobalModerator (uid : JsVal)
| user_isAdministrator (uid : JsVal)
| user_exists (uid : JsVal)
| user_getUserFields (uid : JsVal) (fields : list string)
| groups_ownership_isOwner (uid groupName : JsVal)
| groups_getGroupData (groupName : JsVal)
| groups_getGroupNameByGroupSlug (slug : JsVal)
| groups_isMember (uid groupName : JsVal)
| groups_getOwners (groupName : JsVal)
| meta_config_allowPrivateGroups.

Definition QAns (q : Query) : Type :=
  match q with
  | privileges_admin_can _ _ | privileges_global_can _ _
  | user_isGlobalModerator _ | user_isAdministrator _ | user_exists _
  | groups_ownership_isOwner _ _ | groups_isMember _ _ => bool
  | user_getUserFields _ _ => UserFields.t
  | groups_getGroupData _ => GroupData.t
  | groups_getGroupNameByGroupSlug _ => JsVal
  | groups_getOwners _ => list JsVal
  | meta_config_allowPrivateGroups => JsVal
  end.

Inductive Command : Type :=
| groups_create (data : Data.t)
| groups_update (groupName : JsVal) (data : Data.t)
| groups_destroy (groupName : JsVal)
| groups_join (groupName uid : JsVal)
| groups_requestMembership (groupName uid : JsVal)
| groups_leave (groupName uid : JsVal)
| groups_ownership_grant (uid groupName : JsVal)
| groups_ownership_rescind (uid groupName : JsVal)
| events_log (entry : AuditRecord.t)
| notifications_create (data : Notification.t)
| notifications_push (notification : Notification.t) (uids : list JsVal).

Definition CAns (c : Command) : Type :=
  match c with
  | groups_create _ => GroupData.t
  | notifications_create _ => Notification.t
  | _ => unit
  end.

(** The commands that change the group directory; the remaining ones write
    to the audit log and the notification store. *)
Definition is_mutation (c : Command) : bool :=
  match c with
  | events_log _ | notifications_create _ | notifications_push _ _ => false
  | _ => true
  end.

(** The emission of an audit record. *)
Definition is_audit (c : Command) : bool :=
  match c with events_log _ => true | _ => false end.

(** The creation and the delivery of a notification. *)
Definition is_notification (c : Command) : bool :=
  match c with
  | notifications_create _ | notifications_push _ _ => true
  | _ => false
  end.

(** ** Programs

    An [async] function body: it returns, throws, awaits a query, awaits a
    command and goes on with the answer, or starts a command without
    awaiting it.  There is no construct that catches a rejection: the
    sources have no [try] or [catch]. *)

Inductive Prog (A : Type) : Type :=
| Ret (a : A)
| Throw (f : Failure)
| Ask (q : Query) (k : QAns q → Prog A)
| Do (c : Command) (k : CAns c → Prog A)
| Detach (c : Command) (k : Prog A).

Arguments Ret {A} a.
Arguments Throw {A} f.
Arguments Ask {A} q k.
Arguments Do {A} c k.
Arguments Detach {A} c k.

Fixpoint bind {A B : Type} (p : Prog A) (f : A → Prog B) : Prog B :=
  match p with
  | Ret a => f a
  | Throw e => Throw e
  | Ask q k => Ask q (λ x, bind (k x) f)
  | Do c k => Do c (λ x, bind (k x) f)
  | Detach c k => Detach c (bind k f)
  end.

#[global] Instance Prog_ret : MRet Prog := @Ret.
#[global] Instance Prog_bind : MBind Prog := λ A B f p, bind p f.

(** [await] of a query and of a command. *)
Definition ask (q : Query) : Prog (QAns q) := Ask q Ret.
Definition perform (c : Command) : Prog (CAns c) := Do c Ret.

(** [throw new Error('[[error:e]]')] *)
Definition throw {A : Type} (e : Error) : Prog A := Throw (Typed e).

(** [if (b) { throw new Error('[[error:e]]'); }] *)
Definition throw_if (b : bool) (e : Error) : Prog unit :=
  if b then throw e else Ret ().

(** Reading a property of the payload: a [TypeError] when the payload is
    [undefined] or [null]. *)
Definition payload {A : Type} (data : option Data.t) (k : Data.t → Prog A) : Prog A :=
  match data with
  | Some d => k d
  | None => Throw TypeError
  end.

(** ** Running a program

    A handler answers queries from the world without changing it and
    performs commands, which change the world and either answer or fail
    with a reason of the collaborator's own.  Lookups are total, as the
    signatures of section 6 of the spec have them; a slug that resolves to
    no group is the answer [JNull], which the API tests for. *)

Record Handler (World : Type) : Type :=
  { answer : ∀ q : Query, World → QAns q;
    execute : ∀ c : Command, World → (string + CAns c) * World }.

Arguments answer {World} _ q _.
Arguments execute {World} _ c _.

(** One entry of the call log: a query that was answered, a command that
    was awaited and succeeded, a command that was awaited and failed, or a
    command that was started and not awaited. *)
Inductive Call : Type :=
| Asked (q : Query)
| Did (c : Command)
| Failed (c : Command) (reason : string)
| Detached (c : Command).

Record Outcome (World A : Type) : Type :=
  { calls : list Call;          (* every collaborator call, in order *)
    result : Failure + A;       (* rejected or resolved *)
    final : World }.

Arguments calls {World A} _.
Arguments result {World A} _.
Arguments final {World A} _.

Definition after {World A : Type} (c : Call) (o : Outcome World A) : Outcome World A :=
  {| calls := c :: calls o; result := result o; final := final o |}.

Fixpoint run {World A : Type} (h : Handler World) (p : Prog A) (w : World)
  : Outcome World A :=
  match p with
  | Ret a => {| calls := []; result := inr a; final := w |}
  | Throw f => {| calls := []; result := inl f; final := w |}
  | Ask q k => after (Asked q) (run h (k (answer h q w)) w)
  | Do c k =>
      match execute h c w with
      | (inr a, w') => after (Did c) (run h (k a) w')
      | (inl reason, w') =>
          {| calls := [Failed c reason];
             result := inl (Collaborator reason);
             final := w' |}
      end
  | Detach c k => after (Detached c) (run h k (execute h c w).2)
  end.

(** The commands of a call log, in order, whether they succeeded or not. *)
Definition commands (l : list Call) : list Command :=
  omap (λ c, match c with
             | Did c | Failed c _ | Detached c => Some c
             | Asked _ => None
             end) l.

(** The commands a run performed. *)
Definition effects {World A : Type} (o : Outcome World A) : list Command :=
  commands (calls o).

(** The number of directory mutations a run performed. *)
Definition mutations {World A : Type} (o : Outcome World A) : nat :=
  List.length (filter (λ c, is_mutation c = true) (effects o)).

(** ** The API ([src/api/groups])

    The constants and synchronous helpers of the collaborating modules that
    the API uses are parameters: the arrays [groups.systemGroups] and
    [groups.ephemeralGroups], the name test [groups.isPrivilegeGroup], and
    the string functions [slugify] and [validator.escape]. *)

Section Api.
Context (rt : Runtime)
        (systemGroups ephemeralGroups : list string)
        (isPrivilegeGroup : JsVal → bool)
        (slugify validator_escape : JsVal → string).

Definition isOwner (caller : Caller.t) (groupName : JsVal) : Prog unit :=
  throw_if (negb (typeof_string groupName)) invalid_group_name;;
  hasAdminPrivilege ← ask (privileges_admin_can "admin:groups" (Caller.uid caller));
  isGlobalModerator ← ask (user_isGlobalModerator (Caller.uid caller));
  isOwner ← ask (groups_ownership_isOwner (Caller.uid caller) groupName);
  group ← ask (groups_getGroupData groupName);
  let check :=
    isOwner || hasAdminPrivilege
    || (isGlobalModerator && negb (GroupData.system group)) in
  throw_if (negb check) no_privileges.

Definition logGroupEvent (caller : Caller.t) (event : string)
    (additional : Additional.t) : Prog unit :=
  perform (events_log
    {| AuditRecord.type := event;
       AuditRecord.uid := Caller.uid caller;
       AuditRecord.ip := Caller.ip caller;
       AuditRecord.groupName := Additional.groupName additional;
       AuditRecord.targetUid := Additional.targetUid additional |}).

Definition create (caller : Caller.t) (data : option Data.t) : Prog GroupData.t :=
  if negb (truthy (Caller.uid caller)) then throw no_privileges
  else match data with
  | None => throw invalid_data
  | Some data =>
  if negb (typeof_string (Data.name data)) || isPrivilegeGroup (Data.name data)
  then throw invalid_group_name
  else
  canCreate ← ask (privileges_global_can "group:create" (Caller.uid caller));
  throw_if (negb canCreate) no_privileges;;
  let data := Data.set_ownerUid (Caller.uid caller) data in
  let data := Data.set_system (JBool false) data in
  groupData ← perform (groups_create data);
  logGroupEvent caller "group-create"
    {| Additional.groupName := Data.name data; Additional.targetUid := None |};;
  mret groupData
  end.

Definition update (caller : Caller.t) (data : option Data.t) : Prog GroupData.t :=
  match data with
  | None => throw invalid_data
  | Some data =>
  groupName ← ask (groups_getGroupNameByGroupSlug (Data.slug data));
  isOwner caller groupName;;
  let data := Data.delete_slug data in
  perform (groups_update groupName data);;
  result ← ask (groups_getGroupData
                  (if truthy (Data.name data) then Data.name data else groupName));
  mret result
  end.

Definition _delete (caller : Caller.t) (data : option Data.t) : Prog unit :=
  payload data (λ data,
  groupName ← ask (groups_getGroupNameByGroupSlug (Data.slug data));
  isOwner caller groupName;;
  throw_if (includes systemGroups groupName || includes ephemeralGroups groupName)
           not_allowed;;
  perform (groups_destroy groupName);;
  logGroupEvent caller "group-delete"
    {| Additional.groupName := groupName; Additional.targetUid := None |}).

Definition join (caller : Caller.t) (data : option Data.t) : Prog unit :=
  match data with
  | None => throw invalid_data
  | Some data =>
  throw_if (le_zero rt (Caller.uid caller) || negb (truthy (Data.uid data))) invalid_uid;;
  groupName ← ask (groups_getGroupNameByGroupSlug (Data.slug data));
  throw_if (negb (truthy groupName)) no_group;;
  isCallerAdmin ← ask (user_isAdministrator (Caller.uid caller));
  throw_if (negb isCallerAdmin
            && (includes systemGroups groupName || isPrivilegeGroup groupName))
           not_allowed;;
  groupData ← ask (groups_getGroupData groupName);
  isCallerOwner ← ask (groups_ownership_isOwner (Caller.uid caller) groupName);
  userExists ← ask (user_exists (Data.uid data));
  throw_if (negb userExists) invalid_uid;;
  let isSelf := same_parsed_uid rt (Caller.uid caller) (Data.uid data) in
  allowPrivateGroups ← ask meta_config_allowPrivateGroups;
  if negb (truthy allowPrivateGroups) && isSelf then
    (* all groups are public! *)
    perform (groups_join groupName (Data.uid data));;
    logGroupEvent caller "group-join"
      {| Additional.groupName := groupName;
         Additional.targetUid := Some (Data.uid data) |}
  else
  throw_if (negb isCallerAdmin && isSelf && GroupData.private groupData
            && GroupData.disableJoinRequests groupData)
           group_join_disabled;;
  if (negb (GroupData.private groupData) && isSelf) || isCallerAdmin || isCallerOwner
  then
    perform (groups_join groupName (Data.uid data));;
    logGroupEvent caller "group-join"
      {| Additional.groupName := groupName;
         Additional.targetUid := Some (Data.uid data) |}
  else if isSelf then
    perform (groups_requestMembership groupName (Caller.uid caller));;
    logGroupEvent caller "group-request-membership"
      {| Additional.groupName := groupName;
         Additional.targetUid := Some (Data.uid data) |}
  else mret ()
  end.

Definition leave (caller : Caller.t) (data : option Data.t) : Prog unit :=
  match data with
  | None => throw invalid_data
  | Some data =>
  throw_if (le_zero rt (Caller.uid caller)) invalid_uid;;
  let isSelf := same_parsed_uid rt (Caller.uid caller) (Data.uid data) in
  groupName ← ask (groups_getGroupNameByGroupSlug (Data.slug data));
  throw_if (negb (truthy groupName)) no_group;;
  throw_if (negb (typeof_string groupName)) invalid_group_name;;
  throw_if (strict_eq_string groupName "administrators" && isSelf)
           cant_remove_self_as_admin;;
  groupData ← ask (groups_getGroupData groupName);
  isCallerAdmin ← ask (user_isAdministrator (Caller.uid caller));
  isCallerOwner ← ask (groups_ownership_isOwner (Caller.uid caller) groupName);
  userExists ← ask (user_exists (Data.uid data));
  isMember ← ask (groups_isMember (Data.uid data) groupName);
  throw_if (negb userExists) invalid_uid;;
  if negb isMember then mret ()
  else
  throw_if (GroupData.disableLeave groupData && isSelf) group_leave_disabled;;
  (if isSelf || isCallerAdmin || isCallerOwner
   then perform (groups_leave groupName (Data.uid data))
   else throw no_privileges);;
  fields ← ask (user_getUserFields (Data.uid data) ["username"]);
  let displayname := UserFields.displayname fields in
  let slugified := slugify groupName in
  let path := "/groups/" +:+ slugified in
  notification ← perform (notifications_create
    {| Notification.type := "group-leave";
       Notification.bodyShort :=
         "[[groups:membership.leave.notification_title, "
         +:+ js_toString rt displayname +:+ ", " +:+ js_toString rt groupName +:+ "]]";
       Notification.nid :=
         "group:" +:+ validator_escape groupName +:+ ":uid:"
         +:+ js_toString rt (Data.uid data) +:+ ":group-leave";
       Notification.path := path;
       Notification.from := Data.uid data |});
  uids ← ask (groups_getOwners groupName);
  perform (notifications_push notification uids);;
  logGroupEvent caller "group-leave"
    {| Additional.groupName := groupName;
       Additional.targetUid := Some (Data.uid data) |}
  end.

Definition grant (caller : Caller.t) (data : option Data.t) : Prog unit :=
  payload data (λ data,
  groupName ← ask (groups_getGroupNameByGroupSlug (Data.slug data));
  isOwner caller groupName;;
  perform (groups_ownership_grant (Data.uid data) groupName);;
  logGroupEvent caller "group-owner-grant"
    {| Additional.groupName := groupName;
       Additional.targetUid := Some (Data.uid data) |}).

Definition rescind (caller : Caller.t) (data : option Data.t) : Prog unit :=
  payload data (λ data,
  groupName ← ask (groups_getGroupNameByGroupSlug (Data.slug data));
  isOwner caller groupName;;
  perform (groups_ownership_rescind (Data.uid data) groupName);;
  logGroupEvent caller "group-owner-rescind"
    {| Additional.groupName := groupName;
       Additional.targetUid := Some (Data.uid data) |}).

End Api.

(** ** The seven operations as one family *)

Inductive Operation : Type :=
| op_create | op_update | op_delete | op_join | op_leave | op_grant | op_rescind.

Section Invoke.
Context (rt : Runtime)
        (systemGroups ephemeralGroups : list string)
        (isPrivilegeGroup : JsVal → bool)
        (slugify validator_escape : JsVal → string).

(** A call of an operation, its resolved value dropped. *)
Definition invoke (op : Operation) (caller : Caller.t) (data : option Data.t)
  : Prog unit :=
  match op with
  | op_create => create isPrivilegeGroup caller data;; mret ()
  | op_update => update caller data;; mret ()
  | op_delete => _delete systemGroups ephemeralGroups caller data
  | op_join => join rt systemGroups isPrivilegeGroup caller data
  | op_leave => leave rt slugify validator_escape caller data
  | op_grant => grant caller data
  | op_rescind => rescind caller data
  end.
End Invoke.

(** ** The [create] of [src/api/groups.ts]

    This file holds a [create] of its own and nothing else.  It differs from
    the [create] above in one statement: [logGroupEvent] is imported from
    the groups module and its call is not awaited. *)

Module GroupsTs.
Section Api.
Context (isPrivilegeGroup : JsVal → bool).

(** Modelled from the spec: [logGroupEvent] is imported from the groups
    module, which is not among the sources.  The spec has the audit
    sink receive a record of the completed action, fire-and-forget
    relative to the decision (section 2): the record the API's own
    [logGroupEvent] builds is handed to [events.log] and the call is
    left detached. *)
Definition logGroupEvent (caller : Caller.t) (event : string)
    (additional : Additional.t) : Prog unit :=
  Detach (events_log
    {| AuditRecord.type := event;
       AuditRecord.uid := Caller.uid caller;
       AuditRecord.ip := Caller.ip caller;
       AuditRecord.groupName := Additional.groupName additional;
       AuditRecord.targetUid := Additional.targetUid additional |}) (Ret ()).

Definition create (caller : Caller.t) (data : option Data.t) : Prog GroupData.t :=
  if negb (truthy (Caller.uid caller)) then throw no_privileges
  else match data with
  | None => throw invalid_data
  | Some data =>
  if negb (typeof_string (Data.name data)) || isPrivilegeGroup (Data.name data)
  then throw invalid_group_name
  else
  canCreate ← ask (privileges_global_can "group:create" (Caller.uid caller));
  throw_if (negb canCreate) no_privileges;;
  let data := Data.set_ownerUid (Caller.uid caller) data in
  let data := Data.set_system (JBool false) data in
  groupData ← perform (groups_create data);
  logGroupEvent caller "group-create"
    {| Additional.groupName := Data.name data; Additional.targetUid := None |};;
  mret groupData
  end.
End Api.
End GroupsTs.

(** ** The decision table of [join], in the spec's words

    Section 4.5 of the specification lists five rules, "evaluated top-down,
    first match wins".  [join_table] is that list; which program each
    decision stands for is [join_action]. *)

Inductive JoinDecision : Type :=
| DirectJoin
| PendingRequest
| NoOp
| Denial (e : Error).

Definition join_table
    (isSelf isPlatformAdmin isGroupOwner private disableJoinRequests
     allowPrivateGroups : bool) : JoinDecision :=
  (* 1. the platform disables private groups entirely AND isSelf *)
  if negb allowPrivateGroups && isSelf then DirectJoin
  (* 2. not platform-admin AND isSelf AND private AND join requests disabled *)
  else if negb isPlatformAdmin && isSelf && private && disableJoinRequests
  then Denial group_join_disabled
  (* 3. (not private AND isSelf) OR platform-admin OR group-owner *)
  else if (negb private && isSelf) || isPlatformAdmin || isGroupOwner then DirectJoin
  (* 4. else if isSelf *)
  else if isSelf then PendingRequest
  (* 5. else *)
  else NoOp.

(** The audit record of an action on a target member. *)
Definition audit_of (caller : Caller.t) (data : Data.t) (event : string)
    (groupName : JsVal) : AuditRecord.t :=
  {| AuditRecord.type := event;
     AuditRecord.uid := Caller.uid caller;
     AuditRecord.ip := Caller.ip caller;
     AuditRecord.groupName := groupName;
     AuditRecord.targetUid := Some (Data.uid data) |}.

Definition join_action (caller : Caller.t) (data : Data.t) (groupName : JsVal)
    (d : JoinDecision) : Prog unit :=
  match d with
  | DirectJoin =>
      perform (groups_join groupName (Data.uid data));;
      perform (events_log (audit_of caller data "group-join" groupName))
  | PendingRequest =>
      perform (groups_requestMembership groupName (Caller.uid caller));;
      perform (events_log (audit_of caller data "group-request-membership" groupName))
  | NoOp => mret ()
  | Denial e => throw e
  end.

(** What a run of [join] shows of the decision taken, read off its
    commands and its result: a run that starts with [groups.join] is a
    direct join, one that starts with [groups.requestMembership] a pending
    request, one without commands a no-op when it resolves and a denial
    when it is rejected with a typed error. *)
Definition observed_decision {World : Type} (o : Outcome World unit)
  : option JoinDecision :=
  match effects o, result o with
  | groups_join _ _ :: _, _ => Some DirectJoin
  | groups_requestMembership _ _ :: _, _ => Some PendingRequest
  | [], inr _ => Some NoOp
  | [], inl (Typed e) => Some (Denial e)
  | _, _ => None
  end.

(** ** A reference implementation of the collaborators

    The collaborating modules are not among the sources.  The properties
    below hold for every handler; this one gives them an inhabitant to run
    the operations against. *)

Module Ref.

(** Modelled from the spec: a GroupRecord with its owner set, its member
    set and the pending membership requests (section 3). *)
Record Entry : Type :=
  mkEntry { config : GroupData.t; owners : gset Z; members : gset Z;
            pending : gset Z }.

(** Modelled from the spec: the state behind the Permission Oracle, the
    Group Directory, the user directory and the Audit/Notify Sink
    (sections 2 and 6).  [audit_up] and [notifications_up] tell whether
    the audit log and the notification store accept writes. *)
Record World : Type :=
  mkWorld { groups : gmap string Entry;
            slugs : gmap string string;
            users : gmap Z string;
            platform_admins : gset Z;
            global_moderators : gset Z;
            admin_capabilities : gset (Z * string);
            global_capabilities : gset (Z * string);
            allowPrivateGroups : JsVal;
            audit : list AuditRecord.t;
            notified : list (Notification.t * list JsVal);
            audit_up : bool;
            notifications_up : bool }.

Definition with_directory (g : gmap string Entry) (s : gmap string string)
    (w : World) : World :=
  mkWorld g s (users w) (platform_admins w) (global_moderators w)
          (admin_capabilities w) (global_capabilities w) (allowPrivateGroups w)
          (audit w) (notified w) (audit_up w) (notifications_up w).

Definition with_groups (g : gmap string Entry) (w : World) : World :=
  with_directory g (slugs w) w.

Definition with_audit (a : list AuditRecord.t) (w : World) : World :=
  mkWorld (groups w) (slugs w) (users w) (platform_admins w)
          (global_moderators w) (admin_capabilities w) (global_capabilities w)
          (allowPrivateGroups w) a (notified w) (audit_up w) (notifications_up w).

Definition with_notified (n : list (Notification.t * list JsVal)) (w : World)
  : World :=
  mkWorld (groups w) (slugs w) (users w) (platform_admins w)
          (global_moderators w) (admin_capabilities w) (global_capabilities w)
          (allowPrivateGroups w) (audit w) n (audit_up w) (notifications_up w).

Definition with_members (f : gset Z → gset Z) (e : Entry) : Entry :=
  mkEntry (config e) (owners e) (f (members e)) (pending e).
Definition with_owners (f : gset Z → gset Z) (e : Entry) : Entry :=
  mkEntry (config e) (f (owners e)) (members e) (pending e).
Definition with_pending (f : gset Z → gset Z) (e : Entry) : Entry :=
  mkEntry (config e) (owners e) (members e) (f (pending e)).

Definition name_of (v : JsVal) : option string :=
  match v with JStr s => Some s | _ => None end.

Definition entry_of (w : World) (groupName : JsVal) : option Entry :=
  name_of groupName ≫= λ n, groups w !! n.

(** Identifiers are compared as the integers they parse to. *)
Definition key (uid : JsVal) : option Z :=
  match parseInt10 IntegerRuntime.runtime uid with
  | Finite n => Some n
  | _ => None
  end.

Definition in_set (uid : JsVal) (s : gset Z) : bool :=
  match key uid with
  | Some n => bool_decide (n ∈ s)
  | None => false
  end.

Definition holds (uid : JsVal) (privilege : string) (s : gset (Z * string)) : bool :=
  match key uid with
  | Some n => bool_decide ((n, privilege) ∈ s)
  | None => false
  end.

Definition blank (groupName : JsVal) : GroupData.t :=
  GroupData.mk groupName JUndefined JUndefined false false false false.

Section Handler.
Context (slugify : JsVal → string).

(** Modelled from the spec: the lookups of the Permission Oracle, the
    Group Directory and the user directory (section 6), read off the
    world. *)
Definition answer (q : Query) (w : World) : QAns q :=
  match q with
  | privileges_admin_can p uid => holds uid p (admin_capabilities w)
  | privileges_global_can p uid => holds uid p (global_capabilities w)
  | user_isGlobalModerator uid => in_set uid (global_moderators w)
  | user_isAdministrator uid => in_set uid (platform_admins w)
  | user_exists uid =>
      match key uid with
      | Some n => bool_decide (is_Some (users w !! n))
      | None => false
      end
  | user_getUserFields uid _ =>
      UserFields.mk
        (match key uid ≫= λ n, users w !! n with
         | Some s => JStr s
         | None => JUndefined
         end)
  | groups_ownership_isOwner uid g =>
      match entry_of w g with
      | Some e => in_set uid (owners e)
      | None => false
      end
  | groups_getGroupData g =>
      match entry_of w g with
      | Some e => config e
      | None => blank g
      end
  | groups_getGroupNameByGroupSlug slug =>
      match name_of slug ≫= λ s, slugs w !! s with
      | Some n => JStr n
      | None => JNull
      end
  | groups_isMember uid g =>
      match entry_of w g with
      | Some e => in_set uid (members e)
      | None => false
      end
  | groups_getOwners g =>
      match entry_of w g with
      | Some e => JNum <$> elements (owners e)
      | None => []
      end
  | meta_config_allowPrivateGroups => allowPrivateGroups w
  end.

(** A change of one group's entry by a member identifier. *)
Definition on_entry (g uid : JsVal) (f : Z → Entry → Entry) (w : World)
  : (string + unit) * World :=
  match name_of g, key uid with
  | Some n, Some u =>
      match groups w !! n with
      | Some e => (inr (), with_groups (<[n := f u e]> (groups w)) w)
      | None => (inl "directory: no such group", w)
      end
  | None, _ => (inl "directory: the group name is not a string", w)
  | _, None => (inl "directory: the identifier is not a number", w)
  end.

(** Modelled from the spec: the writes of the Group Directory, the
    ownership relation and the Audit/Notify Sink (sections 3 and 6).  A
    creation stores the record it returns under the requested name, with
    the requested owner as first owner and member; a write to a sink that
    is down fails and changes nothing. *)
Definition execute (c : Command) (w : World) : (string + CAns c) * World :=
  match c with
  | groups_create d =>
      match Data.name d with
      | JStr n =>
          match groups w !! n with
          | Some _ => (inl "directory: the group exists", w)
          | None =>
              let g := GroupData.mk (JStr n) (JStr (slugify (JStr n)))
                         (Data.ownerUid d) (truthy (Data.system d))
                         false false false in
              let first := match key (Data.ownerUid d) with
                           | Some u => {[ u ]}
                           | None => ∅
                           end in
              (inr g,
               with_directory (<[n := mkEntry g first first ∅]> (groups w))
                              (<[slugify (JStr n) := n]> (slugs w)) w)
          end
      | _ => (inl "directory: the group name is not a string", w)
      end
  | groups_update g d =>
      match name_of g ≫= λ n, pair n <$> groups w !! n with
      | Some (n, e) =>
          (* the fields of the payload that may change are merged: the
             name, and with it the derived slug *)
          let n' := match Data.name d with
                    | JStr s => if truthy (JStr s) then s else n
                    | _ => n
                    end in
          let g' := GroupData.mk (JStr n') (JStr (slugify (JStr n')))
                      (GroupData.ownerUid (config e)) (GroupData.system (config e))
                      (GroupData.private (config e))
                      (GroupData.disableJoinRequests (config e))
                      (GroupData.disableLeave (config e)) in
          (inr (),
           with_directory
             (<[n' := mkEntry g' (owners e) (members e) (pending e)]>
                (delete n (groups w)))
             (<[slugify (JStr n') := n']> (filter (λ kv, kv.2 ≠ n) (slugs w))) w)
      | None => (inl "directory: no such group", w)
      end
  | groups_destroy g =>
      match name_of g with
      | Some n =>
          (inr (),
           with_directory (delete n (groups w))
                          (filter (λ kv, kv.2 ≠ n) (slugs w)) w)
      | None => (inl "directory: the group name is not a string", w)
      end
  | groups_join g uid => on_entry g uid (λ u, with_members (λ s, {[ u ]} ∪ s)) w
  | groups_requestMembership g uid =>
      on_entry g uid (λ u, with_pending (λ s, {[ u ]} ∪ s)) w
  | groups_leave g uid => on_entry g uid (λ u, with_members (λ s, s ∖ {[ u ]})) w
  | groups_ownership_grant uid g =>
      on_entry g uid (λ u, with_owners (λ s, {[ u ]} ∪ s)) w
  | groups_ownership_rescind uid g =>
      on_entry g uid (λ u, with_owners (λ s, s ∖ {[ u ]})) w
  | events_log entry =>
      if audit_up w then (inr (), with_audit (audit w ++ [entry]) w)
      else (inl "audit log unavailable", w)
  | notifications_create n =>
      if notifications_up w then (inr n, w)
      else (inl "notification store unavailable", w)
  | notifications_push n uids =>
      if notifications_up w
      then (inr (), with_notified (notified w ++ [(n, uids)]) w)
      else (inl "notification store unavailable", w)
  end.

Definition handler : Handler World :=
  Build_Handler World answer execute.
End Handler.
End Ref.

(** ** A sample installation

    Concrete constants and a concrete world, for running the operations.
    The arrays and helpers stand in for those of the groups module, of
    [slugify] and of [validator]; the spec has "administrators" among the
    system groups (section 8).  The runtime is the one for integer
    identifiers. *)

Module Sample.
(** Modelled from the spec: [groups.systemGroups] and
    [groups.ephemeralGroups] are defined in the groups module, which is not
    among the sources; "administrators" is a system group (section 8). *)
Definition systemGroups : list string := ["registered-users"; "administrators"].
Definition ephemeralGroups : list string := ["guests"; "spiders"].

(** Modelled from the spec: [groups.isPrivilegeGroup] is not among the
    sources; a privilege group is one "whose name matches a reserved
    pattern" (glossary), here the names that start with "cid:". *)
Definition isPrivilegeGroup (v : JsVal) : bool :=
  match v with JStr s => String.prefix "cid:" s | _ => false end.

(** Stand-ins for [slugify] and [validator.escape], which only shape the
    path and the key of the leave notification. *)
Definition runtime : Runtime := IntegerRuntime.runtime.

Definition slugify (v : JsVal) : string := js_toString runtime v.
Definition validator_escape (v : JsVal) : string := js_toString runtime v.

Definition handler : Handler Ref.World := Ref.handler slugify.

Definition group (name : string) (system private disableJoinRequests : bool)
    (owners members : list Z) : string * Ref.Entry :=
  (name,
   Ref.mkEntry
     (GroupData.mk (JStr name) (JStr name) (JNum (default 0 (head owners)))
                   system private disableJoinRequests false)
     (list_to_set owners) (list_to_set members) ∅).

Definition directory : list (string * Ref.Entry) :=
  [ group "administrators" true false false [1] [1];
    group "book-club" false false false [7] [7];
    group "secret" false true true [7] [7];
    group "team" false true false [7] [7; 42] ].

(** User 1 is the platform administrator, 5 a global moderator, 7 owns
    the three ordinary groups, 42 and 99 have no role. *)
Definition world : Ref.World :=
  {| Ref.groups := list_to_map directory;
     Ref.slugs := list_to_map ((λ kv, (kv.1, kv.1)) <$> directory);
     Ref.users := list_to_map [(1, "root"); (5, "mod"); (7, "olga");
                               (42, "reader"); (99, "visitor")];
     Ref.platform_admins := {[ 1 ]};
     Ref.global_moderators := {[ 5 ]};
     Ref.admin_capabilities := {[ (1, "admin:groups") ]};
     Ref.global_capabilities := {[ (1, "group:create"); (42, "group:create") ]};
     Ref.allowPrivateGroups := JNum 1;
     Ref.audit := [];
     Ref.notified := [];
     Ref.audit_up := true;
     Ref.notifications_up := true |}.

(** The same installation with private groups disabled platform-wide. *)
Definition world_all_public : Ref.World :=
  Ref.mkWorld (Ref.groups world) (Ref.slugs world) (Ref.users world)
    (Ref.platform_admins world) (Ref.global_moderators world)
    (Ref.admin_capabilities world) (Ref.global_capabilities world)
    (JNum 0) [] [] true true.

(** The same installation while the audit log and the notification store
    reject writes. *)
Definition world_sinks_down : Ref.World :=
  Ref.mkWorld (Ref.groups world) (Ref.slugs world) (Ref.users world)
    (Ref.platform_admins world) (Ref.global_moderators world)
    (Ref.admin_capabilities world) (Ref.global_capabilities world)
    (JNum 1) [] [] false false.

(** The same installation while the audit log alone rejects writes. *)
Definition world_audit_down : Ref.World :=
  Ref.mkWorld (Ref.groups world) (Ref.slugs world) (Ref.users world)
    (Ref.platform_admins world) (Ref.global_moderators world)
    (Ref.admin_capabilities world) (Ref.global_capabilities world)
    (JNum 1) [] [] false true.

Definition caller (uid : Z) : Caller.t := Caller.mk (JNum uid) (JStr "10.0.0.1").

(** A payload naming a group by its slug and a target member. *)
Definition on (slug : string) (uid : JsVal) : option Data.t :=
  Some (Data.mk JUndefined JUndefined JUndefined (JStr slug) uid).
End Sample.

(** ** Sequencing of runs *)

(** The outcome of running [p ≫= f]: the outcome of [p] when [p] is
    rejected, otherwise that of the continuation, run in the world [p] left,
    after the calls of [p]. *)
Definition and_then {World A B : Type} (o : Outcome World A)
    (f : A → World → Outcome World B) : Outcome World B :=
  match result o with
  | inl e => {| calls := calls o; result := inl e; final := final o |}
  | inr a =>
      let o' := f a (final o) in
      {| calls := calls o ++ calls o'; result := result o'; final := final o' |}
  end.

(** The isOwner gate in the spec's words (section 4.4): the actor is a
    recorded owner of the group, or holds the admin-groups capability, or is
    a global moderator and the group is not a system group.  The three
    predicates and the group's system flag are what the collaborators
    answer in world [w]. *)
Definition spec_isOwner {World : Type} (h : Handler World) (caller : Caller.t)
    (groupName : JsVal) (w : World) : bool :=
  answer h (groups_ownership_isOwner (Caller.uid caller) groupName) w
  || answer h (privileges_admin_can "admin:groups" (Caller.uid caller)) w
  || (answer h (user_isGlobalModerator (Caller.uid caller)) w
      && negb (GroupData.system (answer h (groups_getGroupData groupName) w))).

(** The lookups of the isOwner gate, in the order they are awaited. *)
Definition isOwner_calls (caller : Caller.t) (groupName : JsVal) : list Call :=
  [ Asked (privileges_admin_can "admin:groups" (Caller.uid caller));
    Asked (user_isGlobalModerator (Caller.uid caller));
    Asked (groups_ownership_isOwner (Caller.uid caller) groupName);
    Asked (groups_getGroupData groupName) ].

(** ** The validation steps of [join]

    The guards [join] passes before it reaches its decision table, each the
    negation of the condition the source throws on, and the lookups it has
    awaited by then. *)
Definition join_validated (rt : Runtime) {World : Type} (h : Handler World)
    (systemGroups : list string) (isPrivilegeGroup : JsVal → bool)
    (caller : Caller.t) (data : Data.t) (w : World) : bool :=
  let groupName := answer h (groups_getGroupNameByGroupSlug (Data.slug data)) w in
  let isCallerAdmin := answer h (user_isAdministrator (Caller.uid caller)) w in
  negb (le_zero rt (Caller.uid caller) || negb (truthy (Data.uid data)))
  && truthy groupName
  && negb (negb isCallerAdmin
           && (includes systemGroups groupName || isPrivilegeGroup groupName))
  && answer h (user_exists (Data.uid data)) w.

Definition join_lookups (caller : Caller.t) (data : Data.t) (groupName : JsVal)
  : list Call :=
  [ Asked (groups_getGroupNameByGroupSlug (Data.slug data));
    Asked (user_isAdministrator (Caller.uid caller));
    Asked (groups_getGroupData groupName);
    Asked (groups_ownership_isOwner (Caller.uid caller) groupName);
    Asked (user_exists (Data.uid data));
    Asked meta_config_allowPrivateGroups ].

(** The decision the table of the spec takes in world [w]. *)
Definition join_decision (rt : Runtime) {World : Type} (h : Handler World)
    (caller : Caller.t) (data : Data.t) (w : World) : JoinDecision :=
  let groupName := answer h (groups_getGroupNameByGroupSlug (Data.slug data)) w in
  let groupData := answer h (groups_getGroupData groupName) w in
  join_table
    (same_parsed_uid rt (Caller.uid caller) (Data.uid data))
    (answer h (user_isAdministrator (Caller.uid caller)) w)
    (answer h (groups_ownership_isOwner (Caller.uid caller) groupName) w)
    (GroupData.private groupData)
    (GroupData.disableJoinRequests groupData)
    (truthy (answer h meta_config_allowPrivateGroups w)).

(** A run in which no collaborator command failed. *)
Definition undisturbed {World A : Type} (o : Outcome World A) : Prop :=
  ∀ reason, result o ≠ inl (Collaborator reason).

(** ** The shape of a fail-fast program

    [FailFast noop p]: up to its directory mutation [p] only reads and
    throws, and it performs one mutation at most.  What follows the
    mutation is [Settled]: it throws no more, mutates no more, and only
    reads and writes to the audit log and the notification store.  With
    [noop = false] the program cannot return before its mutation. *)

Inductive Settled {A : Type} : Prog A → Prop :=
| settled_ret (a : A) : Settled (Ret a)
| settled_ask (q : Query) (k : QAns q → Prog A) :
    (∀ x, Settled (k x)) → Settled (Ask q k)
| settled_do (c : Command) (k : CAns c → Prog A) :
    is_mutation c = false → (∀ x, Settled (k x)) → Settled (Do c k)
| settled_detach (c : Command) (k : Prog A) :
    is_mutation c = false → Settled k → Settled (Detach c k).

Inductive FailFast {A : Type} (noop : bool) : Prog A → Prop :=
| fail_fast_ret (a : A) : noop = true → FailFast noop (Ret a)
| fail_fast_throw (f : Failure) : FailFast noop (Throw f)
| fail_fast_ask (q : Query) (k : QAns q → Prog A) :
    (∀ x, FailFast noop (k x)) → FailFast noop (Ask q k)
| fail_fast_mutate (c : Command) (k : CAns c → Prog A) :
    is_mutation c = true → (∀ x, Settled (k x)) → FailFast noop (Do c k).

(** [Awaited p]: every command of [p] is awaited; nothing is started and
    left to itself. *)
Inductive Awaited {A : Type} : Prog A → Prop :=
| awaited_ret (a : A) : Awaited (Ret a)
| awaited_throw (f : Failure) : Awaited (Throw f)
| awaited_ask (q : Query) (k : QAns q → Prog A) :
    (∀ x, Awaited (k x)) → Awaited (Ask q k)
| awaited_do (c : Command) (k : CAns c → Prog A) :
    (∀ x, Awaited (k x)) → Awaited (Do c k).

(** [join] and [leave] have paths that return without a mutation. *)
Definition may_do_nothing (op : Operation) : bool :=
  match op with
  | op_join | op_leave => true
  | _ => false
  end.

(** ** Lookups of [leave] and contracts of the collaborators *)

(** The lookups [leave] has awaited when it tests membership. *)
Definition leave_lookups (caller : Caller.t) (data : Data.t) (groupName : JsVal)
  : list Call :=
  [ Asked (groups_getGroupNameByGroupSlug (Data.slug data));
    Asked (groups_getGroupData groupName);
    Asked (user_isAdministrator (Caller.uid caller));
    Asked (groups_ownership_isOwner (Caller.uid caller) groupName);
    Asked (user_exists (Data.uid data));
    Asked (groups_isMember (Data.uid data) groupName) ].

(** Modelled from the spec: the contract of [GroupDirectory.leave]
    (sections 3 and 6), which lives in the groups module and is not among
    the sources.  Once it has succeeded the member is no longer in the
    member set of that group, and slugs resolve as before. *)
Definition leave_removes_member {World : Type} (h : Handler World) : Prop :=
  ∀ (g uid : JsVal) (w w' : World),
    execute h (groups_leave g uid) w = (inr (), w') →
    answer h (groups_isMember uid g) w' = false
    ∧ ∀ slug, answer h (groups_getGroupNameByGroupSlug slug) w'
              = answer h (groups_getGroupNameByGroupSlug slug) w.

(** Modelled from the spec: the Audit/Notify Sink is write-only (section
    2).  What its commands write is not read back by any lookup, whether
    they succeed or fail. *)
Definition sinks_write_only {World : Type} (h : Handler World) : Prop :=
  ∀ (c : Command) (w : World) (q : Query),
    is_mutation c = false → answer h q (execute h c w).2 = answer h q w.

(** Modelled from the spec: the contract of [GroupDirectory.create] and
    [GroupDirectory.getConfig] (section 6), which live in the groups module
    and are not among the sources.  The record a successful creation
    returns carries the owner and the system flag of the request, and it is
    the record a lookup by the requested name then returns. *)
Definition create_keeps_request {World : Type} (h : Handler World) : Prop :=
  ∀ (d : Data.t) (w w' : World) (g : GroupData.t),
    execute h (groups_create d) w = (inr g, w') →
    GroupData.system g = truthy (Data.system d)
    ∧ GroupData.ownerUid g = Data.ownerUid d
    ∧ answer h (groups_getGroupData (Data.name d)) w' = g.

(** The guards [leave] passes before it looks anything up about the caller
    or the target, each the negation of the condition the source throws
    on. *)
Definition leave_validated (rt : Runtime) {World : Type} (h : Handler World)
    (caller : Caller.t) (data : Data.t) (w : World) : bool :=
  let groupName := answer h (groups_getGroupNameByGroupSlug (Data.slug data)) w in
  negb (le_zero rt (Caller.uid caller))
  && truthy groupName
  && typeof_string groupName
  && negb (strict_eq_string groupName "administrators"
           && same_parsed_uid rt (Caller.uid caller) (Data.uid data)).

(** The payload [create] hands to [groups.create]: the request with
    [ownerUid] and [system] overwritten. *)
Definition forced (caller : Caller.t) (data : Data.t) : Data.t :=
  Data.set_system (JBool false) (Data.set_ownerUid (Caller.uid caller) data).

(** The audit record of an action on a group as a whole. *)
Definition group_audit (caller : Caller.t) (event : string) (groupName : JsVal)
  : AuditRecord.t :=
  {| AuditRecord.type := event;
     AuditRecord.uid := Caller.uid caller;
     AuditRecord.ip := Caller.ip caller;
     AuditRecord.groupName := groupName;
     AuditRecord.targetUid := None |}.

(** What a run of [grant] or [rescind] never does: look the target up,
    or reject with invalid-uid or invalid-data. *)
Definition skips_target_checks {World A : Type} (o : Outcome World A) : Prop :=
  (∀ uid, Asked (user_exists uid) ∉ calls o)
  ∧ (∀ uid g, Asked (groups_isMember uid g) ∉ calls o)
  ∧ result o ≠ inl (Typed invalid_uid)
  ∧ result o ≠ inl (Typed invalid_data).

(** ** A collaborator that answers as told

    For each combination of the inputs of the decision table of [join], a
    handler whose lookups yield that combination; its commands succeed and
    there is no state. *)

Module Told.
Definition answer (isPlatformAdmin isGroupOwner private disableJoinRequests
    allowPrivateGroups : bool) (q : Query) (w : unit) : QAns q :=
  match q with
  | user_isAdministrator _ => isPlatformAdmin
  | groups_ownership_isOwner _ _ => isGroupOwner
  | groups_getGroupData g =>
      GroupData.mk g g JUndefined false private disableJoinRequests false
  | groups_getGroupNameByGroupSlug slug => slug
  | user_exists _ => true
  | meta_config_allowPrivateGroups => JBool allowPrivateGroups
  | privileges_admin_can _ _ | privileges_global_can _ _
  | user_isGlobalModerator _ | groups_isMember _ _ => false
  | user_getUserFields _ _ => UserFields.mk JUndefined
  | groups_getOwners _ => []
  end.

Definition execute (c : Command) (w : unit) : (string + CAns c) * unit :=
  match c with
  | groups_create d =>
      (inr (GroupData.mk (Data.name d) (Data.name d) (Data.ownerUid d)
                         (truthy (Data.system d)) false false false), ())
  | notifications_create n => (inr n, ())
  | groups_update _ _ | groups_destroy _ | groups_join _ _
  | groups_requestMembership _ _ | groups_leave _ _
  | groups_ownership_grant _ _ | groups_ownership_rescind _ _
  | events_log _ | notifications_push _ _ => (inr (), ())
  end.

Definition handler (isPlatformAdmin isGroupOwner private disableJoinRequests
    allowPrivateGroups : bool) : Handler unit :=
  Build_Handler unit
    (answer isPlatformAdmin isGroupOwner private disableJoinRequests
            allowPrivateGroups)
    execute.

(** User 1 asks for "club": for themself, or for user 2. *)
Definition caller : Caller.t := Caller.mk (JNum 1) (JStr "10.0.0.1").
Definition request (isSelf : bool) : Data.t :=
  Data.mk JUndefined JUndefined JUndefined (JStr "club")
          (JNum (if isSelf then 1 else 2)).
End Told.

(** ** Proof steps *)

(** Walks a program along its guards, one case per outcome of each test. *)
Ltac guards :=
  repeat (simpl;
          match goal with
          | |- context [throw_if ?b _] => destruct b eqn:?
          | |- context [if ?b then _ else _] => destruct b eqn:?
          end);
  simpl.

(** Establishes the fail-fast shape of a program, constructor by
    constructor. *)
Ltac shape_step :=
  match goal with
  | |- FailFast _ (Ret _) => apply fail_fast_ret; reflexivity
  | |- FailFast _ (Throw _) => apply fail_fast_throw
  | |- FailFast _ (Ask _ _) => apply fail_fast_ask; intros ?
  | |- FailFast _ (Do _ _) => apply fail_fast_mutate; [reflexivity|intros ?]
  | |- Settled (Ret _) => apply settled_ret
  | |- Settled (Ask _ _) => apply settled_ask; intros ?
  | |- Settled (Do _ _) => apply settled_do; [reflexivity|intros ?]
  | |- Settled (Detach _ _) => apply settled_detach; [reflexivity|]
  | |- context [throw_if ?b _] => destruct b
  | |- context [if ?b then _ else _] => destruct b
  | |- context [match ?d with Some _ => _ | None => _ end] => destruct d
  end.

Ltac shape := repeat (simpl; shape_step).

(** Establishes that a program awaits every command. *)
Ltac awaits_step :=
  match goal with
  | |- Awaited (Ret _) => apply awaited_ret
  | |- Awaited (Throw _) => apply awaited_throw
  | |- Awaited (Ask _ _) => apply awaited_ask; intros ?
  | |- Awaited (Do _ _) => apply awaited_do; intros ?
  | |- context [throw_if ?b _] => destruct b
  | |- context [if ?b then _ else _] => destruct b
  | |- context [match ?d with Some _ => _ | None => _ end] => destruct d
  end.

Ltac awaits := repeat (simpl; awaits_step).

(** No entry of an explicit call log is the given call. *)
Ltac not_in_calls :=
  let Hin := fresh "Hin" in
  intros Hin;
  repeat (apply elem_of_cons in Hin as [Hin|Hin]; [discriminate Hin|]);
  by apply elem_of_nil in Hin.

(** ** Further definitions for the properties of single operations *)

(** The name [update] looks the group up under once it has updated it:
    [data.name || groupName]. *)
Definition updated_name (data : Data.t) (groupName : JsVal) : JsVal :=
  if truthy (Data.name data) then Data.name data else groupName.

(** The object [leave] hands to [notifications.create], for the display
    name it has fetched. *)
Definition leave_notification (rt : Runtime)
    (slugify validator_escape : JsVal → string)
    (data : Data.t) (groupName displayname : JsVal) : Notification.t :=
  {| Notification.type := "group-leave";
     Notification.bodyShort :=
       "[[groups:membership.leave.notification_title, "
       +:+ js_toString rt displayname +:+ ", " +:+ js_toString rt groupName +:+ "]]";
     Notification.nid :=
       "group:" +:+ validator_escape groupName +:+ ":uid:"
       +:+ js_toString rt (Data.uid data) +:+ ":group-leave";
     Notification.path := "/groups/" +:+ slugify groupName;
     Notification.from := Data.uid data |}.

(** Walks a run along its guards and along the outcome of each command. *)
Ltac paths :=
  guards;
  repeat (match goal with
          | |- context [execute ?h ?c ?w] =>
              let E := fresh "E" in
              destruct (execute h c w) as [[?|?] ?] eqn:E
          end; simpl).

(** The checks [create] makes on the request itself, before any lookup,
    each the negation of the condition the source throws on. *)
Definition create_well_formed (isPrivilegeGroup : JsVal → bool)
    (caller : Caller.t) (data : option Data.t) : bool :=
  truthy (Caller.uid caller)
  && match data with
     | None => false
     | Some d =>
         negb (negb (typeof_string (Data.name d)) || isPrivilegeGroup (Data.name d))
     end.

(** The checks [create] makes before it asks the directory: those on the
    request, then the capability. *)
Definition create_admitted {World : Type} (h : Handler World)
    (isPrivilegeGroup : JsVal → bool) (caller : Caller.t) (data : option Data.t)
    (w : World) : bool :=
  truthy (Caller.uid caller)
  && match data with
     | None => false
     | Some d =>
         negb (negb (typeof_string (Data.name d)) || isPrivilegeGroup (Data.name d))
         && answer h (privileges_global_can "group:create" (Caller.uid caller)) w
     end.

(** Brings what the guards of a path have fixed to bear on a hypothesis
    about the same tests. *)
Ltac settle Hv :=
  repeat match goal with
         | H : negb _ = true |- _ => apply negb_true_iff in H
         | H : negb _ = false |- _ => apply negb_false_iff in H
         end;
  repeat match goal with
         | H : ?b = _ |- _ =>
             tryif constr_eq H Hv then fail else rewrite H in Hv
         end;
  simpl in Hv.

(** ** What a call may write

    The commands within the remit of a call of [op] by [caller] with the
    payload [data], [groupName] being the name the payload's slug resolves
    to when the call starts: the operation's own directory command, on that
    group and on the payload's target (for a membership request: on the
    caller), the notification of [leave], and the audit record of the
    operation, which carries the caller's identifier and address.
    [update] has no audit record. *)
Definition within_remit (rt : Runtime)
    (slugify validator_escape : JsVal → string)
    (op : Operation) (caller : Caller.t) (data : Data.t) (groupName : JsVal)
    (c : Command) : Prop :=
  match op, c with
  | op_create, groups_create d => d = forced caller data
  | op_create, events_log r => r = group_audit caller "group-create" (Data.name data)
  | op_update, groups_update g d => g = groupName ∧ d = Data.delete_slug data
  | op_delete, groups_destroy g => g = groupName
  | op_delete, events_log r => r = group_audit caller "group-delete" groupName
  | op_join, groups_join g uid => g = groupName ∧ uid = Data.uid data
  | op_join, groups_requestMembership g uid => g = groupName ∧ uid = Caller.uid caller
  | op_join, events_log r =>
      r = audit_of caller data "group-join" groupName
      ∨ r = audit_of caller data "group-request-membership" groupName
  | op_leave, groups_leave g uid => g = groupName ∧ uid = Data.uid data
  | op_leave, notifications_create n =>
      ∃ displayname,
        n = leave_notification rt slugify validator_escape data groupName
                               displayname
  | op_leave, notifications_push _ _ => True
  | op_leave, events_log r => r = audit_of caller data "group-leave" groupName
  | op_grant, groups_ownership_grant uid g => g = groupName ∧ uid = Data.uid data
  | op_grant, events_log r => r = audit_of caller data "group-owner-grant" groupName
  | op_rescind, groups_ownership_rescind uid g => g = groupName ∧ uid = Data.uid data
  | op_rescind, events_log r =>
      r = audit_of caller data "group-owner-rescind" groupName
  | _, _ => False
  end.

(** * Properties *)

Section Runs.
Context {World : Type} (h : Handler World).

Lemma outcome_eq {A : Type} (o : Outcome World A) :
  {| calls := calls o; result := result o; final := final o |} = o.
Proof. by destruct o. Qed.

Lemma run_bind {A B : Type} (p : Prog A) (f : A → Prog B) (w : World) :
  run h (p ≫= f) w = and_then (run h p w) (λ a w', run h (f a) w').
Proof.
  unfold mbind, Prog_bind.
  revert w; induction p as [a|e|q k IH|c k IH|c k IH]; intros w; simpl.
  - unfold and_then; simpl. by rewrite outcome_eq.
  - done.
  - rewrite IH. unfold and_then, after; simpl.
    by destruct (result (run h (k (answer h q w)) w)).
  - destruct (execute h c w) as [[reason|a] w']; [done|].
    rewrite IH. unfold and_then, after; simpl.
    by destruct (result (run h (k a) w')).
  - rewrite IH. unfold and_then, after; simpl.
    by destruct (result (run h k (execute h c w).2)).
Qed.

(** A write to a sink, successful or not, changes no answer. *)
Lemma sink_step (c : Command) (wa wb : World) (r : string + CAns c)
    (q : Query) :
  execute h c wa = (r, wb) → is_mutation c = false → sinks_write_only h →
  answer h q wb = answer h q wa.
Proof. intros E Hc Hs. rewrite <- (Hs c wa q Hc), E. done. Qed.

Lemma run_isOwner (caller : Caller.t) (groupName : JsVal) (w : World) :
  run h (isOwner caller groupName) w =
  if typeof_string groupName then
    {| calls := isOwner_calls caller groupName;
       result := if spec_isOwner h caller groupName w then inr ()
                 else inl (Typed no_privileges);
       final := w |}
  else {| calls := []; result := inl (Typed invalid_group_name); final := w |}.
Proof.
  unfold isOwner, spec_isOwner, isOwner_calls.
  destruct (typeof_string groupName); simpl; [|done].
  unfold after; simpl.
  by destruct (_ || _ || _).
Qed.
End Runs.

(** ** The isOwner gate *)

(** C1.  For every caller and every group name that is a string, the
    isOwner gate grants access (resolves) if and only if the caller is a
    recorded owner of the group, or holds the admin-groups capability, or is
    a global moderator and the group is not a system group; when all three
    fail it rejects with no-privileges; a group name that is not a string is
    rejected with invalid-group-name.  The gate only reads: it performs no
    command and leaves the world as it was. *)
Theorem isOwner_grants_iff {World : Type} (h : Handler World)
    (caller : Caller.t) (g : string) (w : World) :
  let uid := Caller.uid caller in
  let owner := answer h (groups_ownership_isOwner uid (JStr g)) w in
  let admin := answer h (privileges_admin_can "admin:groups" uid) w in
  let moderator := answer h (user_isGlobalModerator uid) w in
  let system := GroupData.system (answer h (groups_getGroupData (JStr g)) w) in
  let o := run h (isOwner caller (JStr g)) w in
  (result o = inr ()
   ↔ owner = true ∨ admin = true ∨ (moderator = true ∧ system = false))
  ∧ (owner = false ∧ admin = false ∧ (moderator = false ∨ system = true)
     → result o = inl (Typed no_privileges))
  ∧ effects o = [] ∧ final o = w
  ∧ ∀ v : JsVal, typeof_string v = false →
      result (run h (isOwner caller v) w) = inl (Typed invalid_group_name).
Proof.
  intros uid owner admin moderator system o.
  subst o. rewrite run_isOwner. simpl.
  unfold spec_isOwner. fold uid owner admin moderator system.
  repeat split.
  - destruct owner, admin, moderator, system; simpl; intros; try discriminate; tauto.
  - destruct owner, admin, moderator, system; simpl; try done;
      intros [?|[?|[? ?]]]; discriminate.
  - intros (-> & -> & [-> | ->]); simpl; [done|].
    by rewrite andb_false_r.
  - intros v Hv. rewrite run_isOwner, Hv. done.
Qed.

Lemma isOwner_grants_iff_witness :
  result (run Sample.handler (isOwner (Sample.caller 5) (JStr "team")) Sample.world)
  = inr ()
  ∧ result (run Sample.handler (isOwner (Sample.caller 5) (JStr "administrators"))
                Sample.world)
    = inl (Typed no_privileges)
  ∧ result (run Sample.handler (isOwner (Sample.caller 5) JNull) Sample.world)
    = inl (Typed invalid_group_name).
Proof.
  split; [|split].
  - apply (isOwner_grants_iff Sample.handler (Sample.caller 5) "team" Sample.world).
    right; right. split; reflexivity.
  - apply (isOwner_grants_iff Sample.handler (Sample.caller 5) "administrators"
                              Sample.world).
    repeat split; try reflexivity. right; reflexivity.
  - apply (isOwner_grants_iff Sample.handler (Sample.caller 5) "team" Sample.world).
    reflexivity.
Defined.

(** ** [join] *)

Section Join.
Context (rt : Runtime).
Context {World : Type} (h : Handler World).
Context (systemGroups : list string) (isPrivilegeGroup : JsVal → bool).

Lemma join_validated_guards (caller : Caller.t) (d : Data.t) (w : World) :
  join_validated rt h systemGroups isPrivilegeGroup caller d w = true →
  let groupName := answer h (groups_getGroupNameByGroupSlug (Data.slug d)) w in
  le_zero rt (Caller.uid caller) || negb (truthy (Data.uid d)) = false
  ∧ negb (truthy groupName) = false
  ∧ negb (answer h (user_isAdministrator (Caller.uid caller)) w)
    && (includes systemGroups groupName || isPrivilegeGroup groupName) = false
  ∧ negb (answer h (user_exists (Data.uid d)) w) = false.
Proof.
  unfold join_validated. simpl.
  rewrite !andb_true_iff, !negb_true_iff.
  intros [[[? ->] ?] ->]. done.
Qed.

(** A [join] that does not pass validation is rejected by the guard it
    fails, without any command. *)
Lemma join_not_validated (caller : Caller.t) (d : Data.t) (w : World) :
  let o := run h (join rt systemGroups isPrivilegeGroup caller (Some d)) w in
  join_validated rt h systemGroups isPrivilegeGroup caller d w = false →
  effects o = [] ∧ final o = w
  ∧ ∃ e, result o = inl (Typed e)
         ∧ (e = invalid_uid ∨ e = no_group ∨ e = not_allowed).
Proof.
  unfold join_validated, join, logGroupEvent, mret, Prog_ret.
  paths; intros Hv; settle Hv; try discriminate Hv; repeat split; eauto 6.
Qed.

(** After its validation, [join] runs the action the table selects. *)
Lemma run_join_validated (caller : Caller.t) (d : Data.t) (w : World) :
  join_validated rt h systemGroups isPrivilegeGroup caller d w = true →
  let groupName := answer h (groups_getGroupNameByGroupSlug (Data.slug d)) w in
  run h (join rt systemGroups isPrivilegeGroup caller (Some d)) w =
  and_then
    {| calls := join_lookups caller d groupName; result := inr (); final := w |}
    (λ _ w', run h (join_action caller d groupName (join_decision rt h caller d w)) w').
Proof.
  intros Hv groupName.
  destruct (join_validated_guards caller d w Hv) as (H1 & H2 & H3 & H4).
  fold groupName in H2, H3.
  unfold join, join_decision, join_table, and_then, join_lookups. simpl.
  rewrite H1. simpl. fold groupName. rewrite H2. simpl.
  rewrite H3. simpl. rewrite H4. simpl.
  unfold after, logGroupEvent, audit_of. simpl.
  destruct (truthy (answer h meta_config_allowPrivateGroups w)),
    (same_parsed_uid rt (Caller.uid caller) (Data.uid d)),
    (answer h (user_isAdministrator (Caller.uid caller)) w),
    (answer h (groups_ownership_isOwner (Caller.uid caller) groupName) w),
    (GroupData.private (answer h (groups_getGroupData groupName) w)),
    (GroupData.disableJoinRequests (answer h (groups_getGroupData groupName) w));
    simpl; try reflexivity.
  all: destruct (execute h _ w) as [[?|[]] w1]; simpl; try reflexivity.
  all: destruct (execute h _ w1) as [[?|[]] w2]; simpl; reflexivity.
Qed.

(** What the run of a decision's action shows, after lookups. *)
Lemma observed_join_action (caller : Caller.t) (d : Data.t) (g : JsVal)
    (dec : JoinDecision) (w : World) :
  let o := and_then
             {| calls := join_lookups caller d g; result := inr (); final := w |}
             (λ _ w', run h (join_action caller d g dec) w') in
  observed_decision o = Some dec
  ∧ (undisturbed o →
     match dec with
     | DirectJoin =>
         effects o = [ groups_join g (Data.uid d);
                       events_log (audit_of caller d "group-join" g) ]
         ∧ result o = inr ()
     | PendingRequest =>
         effects o = [ groups_requestMembership g (Caller.uid caller);
                       events_log
                         (audit_of caller d "group-request-membership" g) ]
         ∧ result o = inr ()
     | NoOp => effects o = [] ∧ result o = inr () ∧ final o = w
     | Denial e => effects o = [] ∧ result o = inl (Typed e) ∧ final o = w
     end).
Proof.
  unfold and_then, observed_decision, effects, undisturbed; simpl.
  destruct dec as [| | |e]; simpl; try done.
  all: destruct (execute h _ w) as [[r|[]] w1]; simpl;
    [split; [done|]; intros Hu; by destruct (Hu r)|].
  all: destruct (execute h _ w1) as [[r|[]] w2]; simpl;
    [split; [done|]; intros Hu; by destruct (Hu r)|done].
Qed.

(** C2.  Once the validation steps of [join] have passed, the run is that
    of the action which the five-rule table of the spec, read top-down
    with the first match winning, selects from isSelf, caller is platform
    admin, caller is group owner, the group's private and
    disableJoinRequests flags and the platform's allowPrivateGroups
    setting.  The run shows that decision and no other; when no
    collaborator fails it is a direct join with its group-join audit
    record, a pending membership request with its
    group-request-membership audit record, a silent no-op, or a denial
    with a typed error and no effect. *)
Theorem join_decision_table_total (caller : Caller.t) (d : Data.t) (w : World) :
  join_validated rt h systemGroups isPrivilegeGroup caller d w = true →
  let g := answer h (groups_getGroupNameByGroupSlug (Data.slug d)) w in
  let decision := join_decision rt h caller d w in
  let o := run h (join rt systemGroups isPrivilegeGroup caller (Some d)) w in
  o = and_then
        {| calls := join_lookups caller d g; result := inr (); final := w |}
        (λ _ w', run h (join_action caller d g decision) w')
  ∧ observed_decision o = Some decision
  ∧ (∀ d', observed_decision o = Some d' → d' = decision)
  ∧ (undisturbed o →
     match decision with
     | DirectJoin =>
         effects o = [ groups_join g (Data.uid d);
                       events_log (audit_of caller d "group-join" g) ]
         ∧ result o = inr ()
     | PendingRequest =>
         effects o = [ groups_requestMembership g (Caller.uid caller);
                       events_log
                         (audit_of caller d "group-request-membership" g) ]
         ∧ result o = inr ()
     | NoOp => effects o = [] ∧ result o = inr () ∧ final o = w
     | Denial e => effects o = [] ∧ result o = inl (Typed e) ∧ final o = w
     end).
Proof.
  intros Hv g decision o.
  assert (Ho : o = and_then
            {| calls := join_lookups caller d g; result := inr (); final := w |}
            (λ _ w', run h (join_action caller d g decision) w'))
    by exact (run_join_validated caller d w Hv).
  clearbody o. subst o.
  split; [done|].
  destruct (observed_join_action caller d g decision w) as [Hobs Hshape].
  split; [exact Hobs|]. split; [|exact Hshape].
  intros d' Hd'. rewrite Hobs in Hd'. by injection Hd'.
Qed.

(** C3, as amended.  When the platform configuration disables private
    groups and the caller acts on themself, [join], once its validation
    steps have passed, takes the first rule of its table: a direct join
    with a group-join audit record, and it returns.  The group's private
    and disableJoinRequests flags and the caller's admin and owner
    standing, which the remaining rules test, play no part.  The
    validation steps come first: a call that does not pass them is
    rejected with invalid-uid, no-group or not-allowed, and nothing is
    written. *)
Theorem join_all_public_override (caller : Caller.t) (d : Data.t) (w : World) :
  let g := answer h (groups_getGroupNameByGroupSlug (Data.slug d)) w in
  let o := run h (join rt systemGroups isPrivilegeGroup caller (Some d)) w in
  (join_validated rt h systemGroups isPrivilegeGroup caller d w = true →
   truthy (answer h meta_config_allowPrivateGroups w) = false →
   same_parsed_uid rt (Caller.uid caller) (Data.uid d) = true →
   (∀ isPlatformAdmin isGroupOwner private disableJoinRequests,
      join_table true isPlatformAdmin isGroupOwner private disableJoinRequests
                 false = DirectJoin)
   ∧ o = and_then
           {| calls := join_lookups caller d g; result := inr (); final := w |}
           (λ _ w', run h (join_action caller d g DirectJoin) w')
   ∧ observed_decision o = Some DirectJoin
   ∧ (undisturbed o →
      effects o = [ groups_join g (Data.uid d);
                    events_log (audit_of caller d "group-join" g) ]
      ∧ result o = inr ()))
  ∧ (join_validated rt h systemGroups isPrivilegeGroup caller d w = false →
     effects o = [] ∧ final o = w
     ∧ ∃ e, result o = inl (Typed e)
            ∧ (e = invalid_uid ∨ e = no_group ∨ e = not_allowed)).
Proof.
  intros g o. split; [|exact (join_not_validated caller d w)].
  intros Hv Hpub Hself.
  assert (Hd : join_decision rt h caller d w = DirectJoin).
  { unfold join_decision. by rewrite Hpub, Hself. }
  assert (Ho : o = and_then
            {| calls := join_lookups caller d g; result := inr (); final := w |}
            (λ _ w', run h (join_action caller d g DirectJoin) w')).
  { rewrite <- Hd. exact (run_join_validated caller d w Hv). }
  clearbody o. subst o.
  split; [done|]. split; [done|].
  apply (observed_join_action caller d g DirectJoin w).
Qed.
End Join.

Lemma join_decision_table_total_witness :
  let o := run Sample.handler
             (join Sample.runtime Sample.systemGroups Sample.isPrivilegeGroup
                   (Sample.caller 42)
                   (Sample.on "team" (JStr "42")))
             Sample.world in
  observed_decision o = Some PendingRequest.
Proof.
  refine (proj1 (proj2 (join_decision_table_total Sample.runtime Sample.handler
        Sample.systemGroups
            Sample.isPrivilegeGroup (Sample.caller 42)
            (Data.mk JUndefined JUndefined JUndefined (JStr "team") (JStr "42"))
            Sample.world _))).
  reflexivity.
Defined.

(** Every combination of the six inputs of the table occurs in a validated
    run, which shows the decision the table gives for it. *)
Lemma join_every_combination_occurs
    (isSelf isPlatformAdmin isGroupOwner private disableJoinRequests
     allowPrivateGroups : bool) :
  let h := Told.handler isPlatformAdmin isGroupOwner private disableJoinRequests
                        allowPrivateGroups in
  let d := Told.request isSelf in
  join_validated Sample.runtime h [] (λ _, false) Told.caller d () = true
  ∧ join_decision Sample.runtime h Told.caller d ()
    = join_table isSelf isPlatformAdmin isGroupOwner private disableJoinRequests
                 allowPrivateGroups
  ∧ observed_decision
      (run h (join Sample.runtime [] (λ _, false) Told.caller (Some d)) ())
    = Some (join_table isSelf isPlatformAdmin isGroupOwner private
                       disableJoinRequests allowPrivateGroups).
Proof.
  by destruct isSelf, isPlatformAdmin, isGroupOwner, private, disableJoinRequests,
    allowPrivateGroups.
Qed.

(** With private groups disabled platform-wide, user 42 joins "secret",
    private with join requests disabled, directly. *)
Lemma join_all_public_override_witness :
  let o := run Sample.handler
             (join Sample.runtime Sample.systemGroups Sample.isPrivilegeGroup
                   (Sample.caller 42) (Sample.on "secret" (JStr "42")))
             Sample.world_all_public in
  observed_decision o = Some DirectJoin.
Proof.
  refine (proj1 (proj2 (proj2 (proj1 (join_all_public_override Sample.runtime
            Sample.handler Sample.systemGroups Sample.isPrivilegeGroup
            (Sample.caller 42)
            (Data.mk JUndefined JUndefined JUndefined (JStr "secret") (JStr "42"))
            Sample.world_all_public) _ _ _)))); reflexivity.
Defined.

(** C3, as stated, fails: the join is not unconditional.  With private
    groups disabled platform-wide, user 42 asking to be added to the system
    group "administrators" is rejected with not-allowed and nothing is
    written. *)
Lemma join_all_public_override_not_unconditional :
  ¬ (∀ (rt : Runtime) (World : Type) (h : Handler World)
       (systemGroups : list string) (isPrivilegeGroup : JsVal → bool)
       (caller : Caller.t) (d : Data.t) (w : World),
       truthy (answer h meta_config_allowPrivateGroups w) = false →
       same_parsed_uid rt (Caller.uid caller) (Data.uid d) = true →
       observed_decision
         (run h (join rt systemGroups isPrivilegeGroup caller (Some d)) w)
       = Some DirectJoin).
Proof.
  intros H.
  specialize (H Sample.runtime Ref.World Sample.handler Sample.systemGroups
                Sample.isPrivilegeGroup (Sample.caller 42)
                (Data.mk JUndefined JUndefined JUndefined (JStr "administrators")
                         (JNum 42))
                Sample.world_all_public eq_refl eq_refl).
  vm_compute in H. discriminate H.
Qed.

(** ** [delete] *)

Lemma includes_In (arr : list string) (s : string) :
  includes arr (JStr s) = true ↔ In s arr.
Proof.
  simpl. rewrite existsb_exists. split.
  - intros (x & Hx & Heq). apply String.eqb_eq in Heq. by subst.
  - intros Hin. exists s. split; [done|]. apply String.eqb_refl.
Qed.

Section Delete.
Context {World : Type} (h : Handler World).
Context (systemGroups ephemeralGroups : list string).

(** [delete] on a protected group: the slug lookup, then the gate, then
    the rejection. *)
Lemma run_delete_protected (caller : Caller.t) (d : Data.t) (w : World)
    (g : string) :
  answer h (groups_getGroupNameByGroupSlug (Data.slug d)) w = JStr g →
  In g systemGroups ∨ In g ephemeralGroups →
  run h (_delete systemGroups ephemeralGroups caller (Some d)) w =
  {| calls := Asked (groups_getGroupNameByGroupSlug (Data.slug d))
              :: isOwner_calls caller (JStr g);
     result := if spec_isOwner h caller (JStr g) w then inl (Typed not_allowed)
               else inl (Typed no_privileges);
     final := w |}.
Proof.
  intros Hg Hprot.
  assert (Hinc : includes systemGroups (JStr g) || includes ephemeralGroups (JStr g)
                 = true).
  { apply orb_true_iff. by rewrite !includes_In. }
  unfold _delete, payload, spec_isOwner, isOwner_calls. simpl.
  rewrite Hg. simpl. unfold after. simpl.
  destruct (_ || _ || _ && _); simpl; [|done].
  simpl in Hinc. rewrite Hinc. done.
Qed.

(** C4, as amended.  For every caller, [delete] on a group whose resolved
    name is in the system-group set or in the ephemeral-group set fails
    and destroys nothing: no command is performed and the world is as it
    was.  The isOwner gate comes first: a caller who passes it, as owner,
    by the admin-groups capability or as global moderator of a group not
    flagged system, is rejected with not-allowed; a caller who does not
    pass it is rejected with no-privileges. *)
Theorem delete_protected_group_fails (caller : Caller.t) (d : Data.t) (w : World)
    (g : string) :
  answer h (groups_getGroupNameByGroupSlug (Data.slug d)) w = JStr g →
  In g systemGroups ∨ In g ephemeralGroups →
  let o := run h (_delete systemGroups ephemeralGroups caller (Some d)) w in
  effects o = [] ∧ final o = w
  ∧ (spec_isOwner h caller (JStr g) w = true → result o = inl (Typed not_allowed))
  ∧ (spec_isOwner h caller (JStr g) w = false
     → result o = inl (Typed no_privileges)).
Proof.
  intros Hg Hprot o. subst o.
  rewrite (run_delete_protected caller d w g Hg Hprot). simpl.
  repeat split; by intros ->.
Qed.
End Delete.

(** The owner of "administrators" cannot delete it: not-allowed. *)
Lemma delete_protected_group_fails_witness :
  let o := run Sample.handler
             (_delete Sample.systemGroups Sample.ephemeralGroups (Sample.caller 1)
                      (Sample.on "administrators" JUndefined))
             Sample.world in
  answer Sample.handler (groups_ownership_isOwner (JNum 1) (JStr "administrators"))
         Sample.world = true
  ∧ result o = inl (Typed not_allowed).
Proof.
  split; [reflexivity|].
  refine (proj1 (proj2 (proj2 (delete_protected_group_fails Sample.handler
            Sample.systemGroups Sample.ephemeralGroups (Sample.caller 1)
            (Data.mk JUndefined JUndefined JUndefined (JStr "administrators") JUndefined)
            Sample.world "administrators" _ _))) _).
  - reflexivity.
  - left. simpl. tauto.
  - reflexivity.
Defined.

(** C4, as stated, fails: a caller without any standing who asks to delete
    "administrators" is rejected with no-privileges, not with not-allowed. *)
Lemma delete_protected_group_not_always_not_allowed :
  ¬ (∀ (World : Type) (h : Handler World) (systemGroups ephemeralGroups : list string)
       (caller : Caller.t) (d : Data.t) (w : World) (g : string),
       answer h (groups_getGroupNameByGroupSlug (Data.slug d)) w = JStr g →
       In g systemGroups ∨ In g ephemeralGroups →
       result (run h (_delete systemGroups ephemeralGroups caller (Some d)) w)
       = inl (Typed not_allowed)).
Proof.
  intros H.
  specialize (H Ref.World Sample.handler Sample.systemGroups Sample.ephemeralGroups
                (Sample.caller 42)
                (Data.mk JUndefined JUndefined JUndefined (JStr "administrators")
                         JUndefined)
                Sample.world "administrators" eq_refl).
  assert (Hin : In "administrators" Sample.systemGroups ∨
                In "administrators" Sample.ephemeralGroups) by (left; simpl; tauto).
  specialize (H Hin). vm_compute in H. discriminate H.
Qed.

(** ** Fail-fast validation and the single mutation *)

Section Shape.
Context (rt : Runtime).
Context (systemGroups ephemeralGroups : list string)
        (isPrivilegeGroup : JsVal → bool)
        (slugify validator_escape : JsVal → string).

Lemma invoke_fail_fast (op : Operation) (caller : Caller.t) (data : option Data.t) :
  FailFast (may_do_nothing op)
    (invoke rt systemGroups ephemeralGroups isPrivilegeGroup slugify validator_escape
            op caller data).
Proof.
  destruct op; unfold invoke, create, update, _delete, join, leave, grant, rescind,
    payload, isOwner, logGroupEvent, throw, ask, perform, mret, Prog_ret.
  all: shape.
Qed.
End Shape.

Section FailFast.
Context {World : Type} (h : Handler World).

Lemma mutations_after {A : Type} (c : Call) (o : Outcome World A) :
  mutations (after c o) =
  (match c with
   | Asked _ => 0
   | Did c | Failed c _ | Detached c => if is_mutation c then 1 else 0
   end + mutations o)%nat.
Proof.
  unfold mutations, effects, after; simpl.
  destruct c as [q|c|c r|c]; simpl; try done.
  all: rewrite filter_cons; destruct (decide _) as [Hc|Hc];
    destruct (is_mutation c); simpl; congruence.
Qed.

(** After its mutation a program neither throws a typed error nor
    mutates again. *)
Lemma settled_run {A : Type} (p : Prog A) :
  Settled p → ∀ w,
  (∀ e, result (run h p w) ≠ inl (Typed e)) ∧ mutations (run h p w) = 0%nat.
Proof.
  induction 1 as [a|q k _ IH|c k Hc _ IH|c k Hc _ IH]; intros w; simpl.
  - done.
  - rewrite mutations_after. apply IH.
  - destruct (execute h c w) as [[r|a] w'].
    + split; [done|]. unfold mutations, effects; simpl.
      rewrite filter_cons. destruct (decide _); [congruence|done].
    + rewrite mutations_after, Hc. apply IH.
  - rewrite mutations_after, Hc. apply IH.
Qed.

Lemma fail_fast_run {A : Type} (noop : bool) (p : Prog A) :
  FailFast noop p → ∀ w,
  let o := run h p w in
  (∀ e, result o = inl (Typed e) → effects o = [] ∧ final o = w)
  ∧ (mutations o ≤ 1)%nat
  ∧ (∀ a, result o = inr a →
       mutations o = 1%nat ∨ (noop = true ∧ effects o = [] ∧ final o = w)).
Proof.
  induction 1 as [a Hn|f|q k _ IH|c k Hc Hk]; intros w; simpl.
  - split; [done|]. split; [unfold mutations; simpl; lia|]. intros _ _. by right.
  - split; [done|]. split; [unfold mutations; simpl; lia|]. done.
  - rewrite mutations_after. apply IH.
  - destruct (execute h c w) as [[r|a] w'].
    + split; [done|]. split; [|done].
      unfold mutations, effects; simpl. rewrite filter_cons.
      destruct (decide _); simpl; lia.
    + destruct (settled_run (k a) (Hk a) w') as [Hty Hm].
      rewrite mutations_after, Hc, Hm. simpl.
      split; [intros e He; by destruct (Hty e)|].
      split; [lia|]. intros _ _. by left.
Qed.
End FailFast.

Section NoOpPaths.
Context (rt : Runtime) {World : Type} (h : Handler World).
Context (systemGroups : list string) (isPrivilegeGroup : JsVal → bool).
Context (slugify validator_escape : JsVal → string).

(** A [join] that resolves without any command has passed validation and
    was asked by a caller who is neither the target, nor a platform
    administrator, nor an owner of the group. *)
Lemma join_resolves_quietly (caller : Caller.t) (d : Data.t) (w : World) :
  let g := answer h (groups_getGroupNameByGroupSlug (Data.slug d)) w in
  let o := run h (join rt systemGroups isPrivilegeGroup caller (Some d)) w in
  result o = inr () → effects o = [] →
  join_validated rt h systemGroups isPrivilegeGroup caller d w = true
  ∧ same_parsed_uid rt (Caller.uid caller) (Data.uid d) = false
  ∧ answer h (user_isAdministrator (Caller.uid caller)) w = false
  ∧ answer h (groups_ownership_isOwner (Caller.uid caller) g) w = false.
Proof.
  unfold join_validated, join, logGroupEvent, mret, Prog_ret.
  paths; intros Hr He; try discriminate Hr; try discriminate He.
  all: repeat match goal with
              | H : negb _ = false |- _ => apply negb_false_iff in H
              | H : _ || _ = false |- _ => apply orb_false_iff in H as [? ?]
              end.
  all: repeat match goal with H : ?b = _ |- _ => rewrite H in * end.
  all: simpl in *; repeat split; try done.
Qed.

(** A [leave] that resolves without any command has passed its opening
    guards and was asked for an existing target who is not a member. *)
Lemma leave_resolves_quietly (caller : Caller.t) (d : Data.t) (w : World) :
  let g := answer h (groups_getGroupNameByGroupSlug (Data.slug d)) w in
  let o := run h (leave rt slugify validator_escape caller (Some d)) w in
  result o = inr () → effects o = [] →
  leave_validated rt h caller d w = true
  ∧ answer h (user_exists (Data.uid d)) w = true
  ∧ answer h (groups_isMember (Data.uid d) g) w = false.
Proof.
  unfold leave_validated, leave, logGroupEvent, mret, Prog_ret.
  paths; intros Hr He; try discriminate Hr; try discriminate He.
  all: repeat match goal with
              | H : negb _ = false |- _ => apply negb_false_iff in H
              | H : negb _ = true |- _ => apply negb_true_iff in H
              end.
  all: repeat match goal with H : ?b = _ |- _ => rewrite H in * end.
  all: simpl in *; repeat split; try done.
Qed.
End NoOpPaths.

(** C5, as amended.  For every operation among create, update, delete,
    join, leave, grant and rescind: a call that fails with a typed error has
    performed no command at all and leaves the world as it was; every call
    performs at most one directory mutation; and a successful call has
    performed exactly one, unless it returned on one of the two no-op
    paths, without any command: that of [join], past its validation, for a
    caller who is neither the target, nor a platform administrator, nor an
    owner of the group, and that of [leave], past its opening guards, for
    an existing target who is not a member of the group. *)
Theorem fail_fast_single_mutation (rt : Runtime) {World : Type} (h : Handler World)
    (systemGroups ephemeralGroups : list string) (isPrivilegeGroup : JsVal → bool)
    (slugify validator_escape : JsVal → string)
    (op : Operation) (caller : Caller.t) (data : option Data.t) (w : World) :
  let o := run h (invoke rt systemGroups ephemeralGroups isPrivilegeGroup slugify
                         validator_escape op caller data) w in
  (∀ e, result o = inl (Typed e) → effects o = [] ∧ final o = w)
  ∧ (mutations o ≤ 1)%nat
  ∧ (∀ a, result o = inr a →
       mutations o = 1%nat
       ∨ (effects o = [] ∧ final o = w
          ∧ ∃ d, data = Some d
              ∧ let g := answer h (groups_getGroupNameByGroupSlug (Data.slug d)) w in
                (op = op_join
                 ∧ join_validated rt h systemGroups isPrivilegeGroup caller d w = true
                 ∧ same_parsed_uid rt (Caller.uid caller) (Data.uid d) = false
                 ∧ answer h (user_isAdministrator (Caller.uid caller)) w = false
                 ∧ answer h (groups_ownership_isOwner (Caller.uid caller) g) w
                   = false)
                ∨ (op = op_leave
                   ∧ leave_validated rt h caller d w = true
                   ∧ answer h (user_exists (Data.uid d)) w = true
                   ∧ answer h (groups_isMember (Data.uid d) g) w = false))).
Proof.
  intros o.
  destruct (fail_fast_run h _ _
              (invoke_fail_fast rt systemGroups ephemeralGroups isPrivilegeGroup
                                slugify validator_escape op caller data) w)
    as (Hty & Hle & Hok).
  split; [exact Hty|]. split; [exact Hle|].
  intros a Ha. destruct (Hok a Ha) as [?|(Hn & He & Hw)]; [by left|right].
  split; [exact He|]. split; [exact Hw|].
  subst o. destruct op; simpl in Hn; try discriminate Hn; simpl in Ha, He.
  - destruct data as [d|]; [|discriminate Ha]. destruct a.
    exists d. split; [done|]. left. split; [done|].
    exact (join_resolves_quietly rt h systemGroups isPrivilegeGroup caller d w Ha He).
  - destruct data as [d|]; [|discriminate Ha]. destruct a.
    exists d. split; [done|]. right. split; [done|].
    exact (leave_resolves_quietly rt h slugify validator_escape caller d w Ha He).
Qed.

(** User 42 asks to join "secret", private with join requests disabled:
    rejected, nothing written.  Owner 7 asks that user 99, who is not a
    member of "team", leave: resolved, nothing written. *)
Lemma fail_fast_single_mutation_witness :
  let o := run Sample.handler
             (invoke Sample.runtime Sample.systemGroups Sample.ephemeralGroups
                     Sample.isPrivilegeGroup Sample.slugify Sample.validator_escape
                     op_join (Sample.caller 42) (Sample.on "secret" (JStr "42")))
             Sample.world in
  let o' := run Sample.handler
              (invoke Sample.runtime Sample.systemGroups Sample.ephemeralGroups
                      Sample.isPrivilegeGroup Sample.slugify Sample.validator_escape
                      op_leave (Sample.caller 7) (Sample.on "team" (JStr "99")))
              Sample.world in
  (result o = inl (Typed group_join_disabled) ∧ effects o = [] ∧ final o = Sample.world)
  ∧ (mutations o' = 1%nat ∨ effects o' = []).
Proof.
  split.
  - split; [reflexivity|].
    refine (proj1 (fail_fast_single_mutation Sample.runtime Sample.handler
              Sample.systemGroups Sample.ephemeralGroups Sample.isPrivilegeGroup
              Sample.slugify Sample.validator_escape op_join (Sample.caller 42)
              (Sample.on "secret" (JStr "42")) Sample.world) group_join_disabled _).
    reflexivity.
  - destruct (proj2 (proj2 (fail_fast_single_mutation Sample.runtime Sample.handler
              Sample.systemGroups Sample.ephemeralGroups Sample.isPrivilegeGroup
              Sample.slugify Sample.validator_escape op_leave (Sample.caller 7)
              (Sample.on "team" (JStr "99")) Sample.world)) () eq_refl)
      as [Hm|(He & _)]; [by left|by right].
Defined.

(** C5, as stated, fails: [leave] for a target who is not a member of the
    group succeeds without any mutation, so a successful call does not
    always perform one. *)
Lemma successful_call_without_mutation :
  ¬ (∀ (rt : Runtime) (World : Type) (h : Handler World)
       (systemGroups ephemeralGroups : list string)
       (isPrivilegeGroup : JsVal → bool) (slugify validator_escape : JsVal → string)
       (op : Operation) (caller : Caller.t) (data : option Data.t) (w : World),
       let o := run h (invoke rt systemGroups ephemeralGroups isPrivilegeGroup slugify
                              validator_escape op caller data) w in
       (∃ a, result o = inr a) → mutations o = 1%nat).
Proof.
  intros H.
  specialize (H Sample.runtime Ref.World Sample.handler Sample.systemGroups
                Sample.ephemeralGroups Sample.isPrivilegeGroup Sample.slugify
                Sample.validator_escape op_leave (Sample.caller 7)
                (Sample.on "team" (JStr "99")) Sample.world).
  simpl in H.
  assert (Hm : mutations
                 (run Sample.handler
                    (leave Sample.runtime Sample.slugify Sample.validator_escape
                       (Sample.caller 7) (Sample.on "team" (JStr "99")))
                    Sample.world) = 1%nat).
  { apply H. exists (). reflexivity. }
  vm_compute in Hm. discriminate Hm.
Qed.

(** ** [leave] *)

Section Leave.
Context (rt : Runtime).
Context {World : Type} (h : Handler World).
Context (slugify validator_escape : JsVal → string).

(** C6, as amended.  For every caller whose identifier passes the check
    that opens [leave] ([caller.uid <= 0] is false) and who acts on
    themself, [parseInt] of the caller's identifier being equal to that of
    the target's, [leave] on the group named "administrators" fails with
    cant-remove-self-as-admin.  Neither the caller's admin status nor the
    group's members are looked at: the slug lookup is the only call, and
    nothing is changed.  A caller whose identifier does not pass the check
    is rejected with invalid-uid before the group is looked at. *)
Theorem leave_administrators_by_self (caller : Caller.t) (d : Data.t) (w : World) :
  let o := run h (leave rt slugify validator_escape caller (Some d)) w in
  (le_zero rt (Caller.uid caller) = false →
   answer h (groups_getGroupNameByGroupSlug (Data.slug d)) w
   = JStr "administrators" →
   same_parsed_uid rt (Caller.uid caller) (Data.uid d) = true →
   result o = inl (Typed cant_remove_self_as_admin)
   ∧ calls o = [Asked (groups_getGroupNameByGroupSlug (Data.slug d))]
   ∧ final o = w)
  ∧ (le_zero rt (Caller.uid caller) = true →
     result o = inl (Typed invalid_uid) ∧ calls o = [] ∧ final o = w).
Proof.
  intros o. subst o. split.
  - intros Huid Hg Hself.
    unfold leave. simpl. rewrite Huid. simpl. rewrite Hg. simpl.
    rewrite Hself. done.
  - intros Huid. unfold leave. simpl. rewrite Huid. done.
Qed.

(** Whatever else holds, [leave] for a target who is not a member of the
    group the slug resolves to performs no command. *)
Lemma leave_not_member_quiet (caller : Caller.t) (d : Data.t) (w : World) :
  answer h (groups_isMember (Data.uid d)
              (answer h (groups_getGroupNameByGroupSlug (Data.slug d)) w)) w
  = false →
  let o := run h (leave rt slugify validator_escape caller (Some d)) w in
  effects o = [] ∧ final o = w.
Proof.
  intros Hm. unfold leave. guards; try done.
  all: rewrite Hm in *; discriminate.
Qed.

Lemma run_leave_not_member (caller : Caller.t) (d : Data.t) (w : World)
    (g : string) :
  le_zero rt (Caller.uid caller) = false →
  answer h (groups_getGroupNameByGroupSlug (Data.slug d)) w = JStr g →
  g ≠ "" →
  strict_eq_string (JStr g) "administrators"
  && same_parsed_uid rt (Caller.uid caller) (Data.uid d) = false →
  answer h (user_exists (Data.uid d)) w = true →
  answer h (groups_isMember (Data.uid d) (JStr g)) w = false →
  run h (leave rt slugify validator_escape caller (Some d)) w =
  {| calls := leave_lookups caller d (JStr g); result := inr (); final := w |}.
Proof.
  intros Huid Hg Hne Hadm Hex Hm.
  unfold leave, leave_lookups. simpl. rewrite Huid. simpl. rewrite Hg. simpl.
  assert (Hemp : String.eqb g "" = false) by by apply String.eqb_neq.
  rewrite Hemp. simpl. simpl in Hadm. rewrite Hadm. simpl.
  rewrite Hex. simpl. rewrite Hm. done.
Qed.

(** A [leave] that does not pass its opening guards is rejected by the
    guard it fails, without any command. *)
Lemma leave_not_validated (caller : Caller.t) (d : Data.t) (w : World) :
  let o := run h (leave rt slugify validator_escape caller (Some d)) w in
  leave_validated rt h caller d w = false →
  effects o = [] ∧ final o = w
  ∧ ∃ e, result o = inl (Typed e)
         ∧ (e = invalid_uid ∨ e = no_group ∨ e = invalid_group_name
            ∨ e = cant_remove_self_as_admin).
Proof.
  unfold leave_validated, leave, logGroupEvent, mret, Prog_ret.
  paths; intros Hv; settle Hv; try discriminate Hv; repeat split; eauto 7.
Qed.

(** The two ways [leave] succeeds: on its no-op path, or through the
    membership mutation, after which only the sinks are written to. *)
Lemma leave_success_cases (caller : Caller.t) (d : Data.t) (w : World) :
  let g := answer h (groups_getGroupNameByGroupSlug (Data.slug d)) w in
  let o := run h (leave rt slugify validator_escape caller (Some d)) w in
  result o = inr () →
  (answer h (groups_isMember (Data.uid d) g) w = false
   ∧ effects o = [] ∧ final o = w)
  ∨ (∃ w1, execute h (groups_leave g (Data.uid d)) w = (inr (), w1)
           ∧ (sinks_write_only h → ∀ q, answer h q (final o) = answer h q w1)).
Proof.
  simpl. unfold leave, mret, Prog_ret. guards; try discriminate.
  all: try (intros _; left; split; [by apply negb_true_iff|done]).
  all: unfold logGroupEvent; simpl.
  all: destruct (execute h (groups_leave _ _) w) as [[r|[]] w1] eqn:E1;
    simpl; [discriminate|].
  all: destruct (execute h (notifications_create _) w1) as [[r|n'] w2] eqn:E2;
    simpl; [discriminate|].
  all: destruct (execute h (notifications_push _ _) w2) as [[r|[]] w3] eqn:E3;
    simpl; [discriminate|].
  all: destruct (execute h (events_log _) w3) as [[r|[]] w4] eqn:E4;
    simpl; [discriminate|].
  all: intros _; right; exists w1; split; [done|]; intros Hs q.
  all: rewrite (sink_step h _ _ _ _ q E4 eq_refl Hs).
  all: rewrite (sink_step h _ _ _ _ q E3 eq_refl Hs).
  all: by rewrite (sink_step h _ _ _ _ q E2 eq_refl Hs).
Qed.

(** C7, as amended.  [leave] is idempotent.  When the target is not
    currently a member of the group the slug resolves to, [leave] performs
    no command: no mutation, no audit record, no notification, and the
    world is as it was.  It returns when moreover the target user exists
    and the call passes the guards that open [leave]: the caller's
    identifier passes, the slug resolves to a string, and the call is not
    a caller's asking to leave "administrators" themself;
    a call that fails one of these guards is rejected with invalid-uid,
    no-group, invalid-group-name or cant-remove-self-as-admin.  Hence, the
    directory's leave removing the member and the sinks being write-only, a
    second [leave] right after a successful one performs no command
    either. *)
Theorem leave_idempotent (caller : Caller.t) (d : Data.t) (w : World) :
  let g := answer h (groups_getGroupNameByGroupSlug (Data.slug d)) w in
  let o := run h (leave rt slugify validator_escape caller (Some d)) w in
  (answer h (groups_isMember (Data.uid d) g) w = false →
   effects o = [] ∧ final o = w)
  ∧ (leave_validated rt h caller d w = true →
     answer h (user_exists (Data.uid d)) w = true →
     answer h (groups_isMember (Data.uid d) g) w = false →
     result o = inr () ∧ calls o = leave_lookups caller d g)
  ∧ (leave_removes_member h → sinks_write_only h →
     result o = inr () →
     let o2 := run h (leave rt slugify validator_escape caller (Some d)) (final o) in
     effects o2 = [] ∧ final o2 = final o)
  ∧ (leave_validated rt h caller d w = false →
     effects o = [] ∧ final o = w
     ∧ ∃ e, result o = inl (Typed e)
            ∧ (e = invalid_uid ∨ e = no_group ∨ e = invalid_group_name
               ∨ e = cant_remove_self_as_admin)).
Proof.
  intros g o. split; [|split; [|split; [|exact (leave_not_validated caller d w)]]].
  - intros Hm. by apply leave_not_member_quiet.
  - unfold leave_validated. fold g.
    rewrite !andb_true_iff, !negb_true_iff.
    intros [[[Huid Htr] Hty] Hadm] Hex Hm.
    destruct g as [| | | | |s] eqn:Hg; try discriminate.
    assert (Hne : s ≠ "").
    { intros ->. discriminate. }
    subst o.
    rewrite (run_leave_not_member caller d w s Huid Hg Hne Hadm Hex Hm). done.
  - intros Hleave Hsinks Hok o2. subst o2.
    apply leave_not_member_quiet.
    destruct (leave_success_cases caller d w Hok) as [(Hm & _ & Hw)|(w1 & E1 & Hq)].
    + subst o. rewrite Hw. exact Hm.
    + subst o. rewrite !(Hq Hsinks).
      destruct (Hleave _ _ _ _ E1) as [Hm Hslug].
      rewrite Hslug. exact Hm.
Qed.
End Leave.

Lemma Ref_sinks_write_only (slugify : JsVal → string) :
  sinks_write_only (Ref.handler slugify).
Proof.
  intros c w q Hc.
  destruct c; try discriminate Hc; simpl;
    [destruct (Ref.audit_up w)|destruct (Ref.notifications_up w)..]; simpl;
    by destruct q.
Qed.

Lemma Ref_leave_removes_member (slugify : JsVal → string) :
  leave_removes_member (Ref.handler slugify).
Proof.
  intros g uid w w' E. simpl in E. unfold Ref.on_entry in E.
  destruct (Ref.name_of g) as [n|] eqn:Hn;
    destruct (Ref.key uid) as [u|] eqn:Hu; try discriminate E.
  destruct (Ref.groups w !! n) as [e|] eqn:He; [|discriminate E].
  injection E as <-. split; [|reflexivity].
  simpl. unfold Ref.entry_of. rewrite Hn. simpl. rewrite lookup_insert_eq.
  unfold Ref.in_set. rewrite Hu. apply bool_decide_eq_false. simpl.
  intros [_ Hnot]%elem_of_difference. apply Hnot. by apply elem_of_singleton.
Qed.

(** User 7, the owner of "team", removes member 42 and then asks again:
    the first call leaves one mutation behind, the second none. *)
Lemma leave_idempotent_witness :
  let again := leave Sample.runtime Sample.slugify Sample.validator_escape
                     (Sample.caller 7) (Sample.on "team" (JStr "42")) in
  let o := run Sample.handler again Sample.world in
  let o2 := run Sample.handler again (final o) in
  mutations o = 1%nat ∧ effects o2 = [] ∧ final o2 = final o.
Proof.
  split; [reflexivity|].
  refine (proj1 (proj2 (proj2 (leave_idempotent Sample.runtime Sample.handler
            Sample.slugify Sample.validator_escape (Sample.caller 7)
            (Data.mk JUndefined JUndefined JUndefined (JStr "team") (JStr "42"))
            Sample.world))) _ _ _).
  - apply Ref_leave_removes_member.
  - apply Ref_sinks_write_only.
  - reflexivity.
Defined.

(** The platform administrator asks to leave "administrators". *)
Lemma leave_administrators_by_self_witness :
  result (run Sample.handler
            (leave Sample.runtime Sample.slugify Sample.validator_escape
                   (Sample.caller 1) (Sample.on "administrators" (JStr "1")))
            Sample.world)
  = inl (Typed cant_remove_self_as_admin).
Proof.
  refine (proj1 (proj1 (leave_administrators_by_self Sample.runtime Sample.handler
            Sample.slugify Sample.validator_escape (Sample.caller 1)
            (Data.mk JUndefined JUndefined JUndefined (JStr "administrators") (JStr "1"))
            Sample.world) _ _ _)); reflexivity.
Defined.

(** C6, as stated, fails: a guest, whose identifier is 0, acting on
    themself is rejected with invalid-uid by the check that opens [leave];
    the group is not looked at. *)
Lemma leave_administrators_by_guest :
  ¬ (∀ (rt : Runtime) (World : Type) (h : Handler World)
       (slugify validator_escape : JsVal → string)
       (caller : Caller.t) (d : Data.t) (w : World),
       answer h (groups_getGroupNameByGroupSlug (Data.slug d)) w
       = JStr "administrators" →
       same_parsed_uid rt (Caller.uid caller) (Data.uid d) = true →
       result (run h (leave rt slugify validator_escape caller (Some d)) w)
       = inl (Typed cant_remove_self_as_admin)).
Proof.
  intros H.
  specialize (H Sample.runtime Ref.World Sample.handler Sample.slugify
                Sample.validator_escape (Sample.caller 0)
                (Data.mk JUndefined JUndefined JUndefined (JStr "administrators")
                         (JNum 0))
                Sample.world eq_refl eq_refl).
  vm_compute in H. discriminate H.
Qed.

(** C7, as stated, fails: [leave] does not return for every existing
    target who is not a member.  User 42, who is not a member of
    "administrators", asking to leave it themself is rejected with
    cant-remove-self-as-admin. *)
Lemma leave_of_non_member_may_be_rejected :
  ¬ (∀ (rt : Runtime) (World : Type) (h : Handler World)
       (slugify validator_escape : JsVal → string)
       (caller : Caller.t) (d : Data.t) (w : World),
       let g := answer h (groups_getGroupNameByGroupSlug (Data.slug d)) w in
       answer h (user_exists (Data.uid d)) w = true →
       answer h (groups_isMember (Data.uid d) g) w = false →
       result (run h (leave rt slugify validator_escape caller (Some d)) w)
       = inr ()).
Proof.
  intros H.
  specialize (H Sample.runtime Ref.World Sample.handler Sample.slugify
                Sample.validator_escape (Sample.caller 42)
                (Data.mk JUndefined JUndefined JUndefined (JStr "administrators")
                         (JNum 42))
                Sample.world eq_refl eq_refl).
  vm_compute in H. discriminate H.
Qed.

(** ** [create] *)

Section Create.
Context {World : Type} (h : Handler World).
Context (isPrivilegeGroup : JsVal → bool).

(** A successful [create]: the directory created the forced payload and
    the audit record was written. *)
Lemma create_success (caller : Caller.t) (d : Data.t) (w : World)
    (g : GroupData.t) :
  let o := run h (create isPrivilegeGroup caller (Some d)) w in
  result o = inr g →
  ∃ w1 w2,
    execute h (groups_create (forced caller d)) w = (inr g, w1)
    ∧ execute h (events_log (group_audit caller "group-create" (Data.name d))) w1
      = (inr (), w2)
    ∧ effects o = [ groups_create (forced caller d);
                    events_log (group_audit caller "group-create" (Data.name d)) ]
    ∧ final o = w2.
Proof.
  simpl. unfold create, logGroupEvent, mret, Prog_ret. guards; try discriminate.
  fold (forced caller d).
  destruct (execute h (groups_create _) w) as [[r|g'] w1] eqn:E1;
    simpl; [discriminate|].
  change (Data.name (forced caller d)) with (Data.name d).
  fold (group_audit caller "group-create" (Data.name d)).
  destruct (execute h (events_log _) w1) as [[r|[]] w2] eqn:E2;
    simpl; [discriminate|].
  intros [= ->]. by exists w1, w2.
Qed.

(** A successful [create] of [groups.ts]: the directory created the
    forced payload and the audit record was handed over, not awaited. *)
Lemma GroupsTs_create_success (caller : Caller.t) (d : Data.t) (w : World)
    (g : GroupData.t) :
  let o := run h (GroupsTs.create isPrivilegeGroup caller (Some d)) w in
  let record := events_log (group_audit caller "group-create" (Data.name d)) in
  result o = inr g →
  ∃ w1,
    execute h (groups_create (forced caller d)) w = (inr g, w1)
    ∧ calls o = [ Asked (privileges_global_can "group:create" (Caller.uid caller));
                  Did (groups_create (forced caller d));
                  Detached record ]
    ∧ final o = (execute h record w1).2.
Proof.
  simpl. unfold GroupsTs.create, GroupsTs.logGroupEvent, mret, Prog_ret.
  guards; try discriminate.
  fold (forced caller d).
  destruct (execute h (groups_create _) w) as [[r|g'] w1] eqn:E1;
    simpl; [discriminate|].
  change (Data.name (forced caller d)) with (Data.name d).
  fold (group_audit caller "group-create" (Data.name d)).
  intros [= ->]. by exists w1.
Qed.

(** C8.  For every successful [create], that of the API and that of
    [src/api/groups.ts] alike, the payload handed to the directory has
    [system = false] and [ownerUid] equal to the caller's identifier,
    whatever the request carried in these fields, and a group-create
    audit record is emitted after the creation (awaited by the API, handed
    over without waiting by [groups.ts]).  The directory returning and
    keeping the record it was asked to create, and the sinks being
    write-only, the record [create] returns and the record a subsequent
    lookup by the group's name returns both have [system = false] and the
    caller as [ownerUid]. *)
Theorem create_forces_owner_and_system (caller : Caller.t) (d : Data.t) (w : World)
    (g : GroupData.t) :
  let o := run h (create isPrivilegeGroup caller (Some d)) w in
  let o_ts := run h (GroupsTs.create isPrivilegeGroup caller (Some d)) w in
  let record := events_log (group_audit caller "group-create" (Data.name d)) in
  (result o = inr g →
   Data.ownerUid (forced caller d) = Caller.uid caller
   ∧ Data.system (forced caller d) = JBool false
   ∧ effects o = [groups_create (forced caller d); record]
   ∧ (execute h (groups_create (forced caller d)) w).1 = inr g
   ∧ (create_keeps_request h → sinks_write_only h →
      GroupData.system g = false
      ∧ GroupData.ownerUid g = Caller.uid caller
      ∧ answer h (groups_getGroupData (Data.name d)) (final o) = g))
  ∧ (result o_ts = inr g →
     Data.ownerUid (forced caller d) = Caller.uid caller
     ∧ Data.system (forced caller d) = JBool false
     ∧ effects o_ts = [groups_create (forced caller d); record]
     ∧ Detached record ∈ calls o_ts
     ∧ (execute h (groups_create (forced caller d)) w).1 = inr g
     ∧ (create_keeps_request h → sinks_write_only h →
        GroupData.system g = false
        ∧ GroupData.ownerUid g = Caller.uid caller
        ∧ answer h (groups_getGroupData (Data.name d)) (final o_ts) = g)).
Proof.
  intros o o_ts record. split.
  - intros Hok.
    destruct (create_success caller d w g Hok) as (w1 & w2 & E1 & E2 & Heff & Hfin).
    fold o in Heff, Hfin.
    split; [done|]. split; [done|]. split; [done|].
    split; [by rewrite E1|].
    intros Hcreate Hsinks.
    destruct (Hcreate _ _ _ _ E1) as (Hsys & Hown & Hget).
    split; [done|]. split; [done|].
    rewrite Hfin, <- Hget.
    exact (sink_step h _ _ _ _ _ E2 eq_refl Hsinks).
  - intros Hok.
    destruct (GroupsTs_create_success caller d w g Hok) as (w1 & E1 & Hcalls & Hfin).
    fold o_ts in Hcalls, Hfin. fold record in Hcalls, Hfin.
    split; [done|]. split; [done|].
    split; [unfold effects; by rewrite Hcalls|].
    split.
    { rewrite Hcalls. apply elem_of_cons; right. apply elem_of_cons; right.
      apply elem_of_cons; by left. }
    split; [by rewrite E1|].
    intros Hcreate Hsinks.
    destruct (Hcreate _ _ _ _ E1) as (Hsys & Hown & Hget).
    split; [done|]. split; [done|].
    rewrite Hfin, <- Hget.
    exact (Hsinks record w1 _ eq_refl).
Qed.
End Create.

Lemma Ref_create_keeps_request (slugify : JsVal → string) :
  create_keeps_request (Ref.handler slugify).
Proof.
  intros d w w' g E. simpl in E.
  destruct (Data.name d) as [| | | | |n] eqn:Hn; try discriminate E.
  destruct (Ref.groups w !! n) as [e|] eqn:He; [discriminate E|].
  injection E as <- <-. split; [done|]. split; [done|].
  simpl. unfold Ref.entry_of. simpl. by rewrite lookup_insert_eq.
Qed.

(** User 42 asks for a system group owned by user 1 and gets an ordinary
    group of their own, from the [create] of the API and from that of
    [groups.ts]. *)
Lemma create_forces_owner_and_system_witness :
  let request := Data.mk (JStr "chess") (JNum 1) (JBool true) JUndefined JUndefined in
  let o := run Sample.handler
             (create Sample.isPrivilegeGroup (Sample.caller 42) (Some request))
             Sample.world in
  let o_ts := run Sample.handler
                (GroupsTs.create Sample.isPrivilegeGroup (Sample.caller 42)
                                 (Some request))
                Sample.world in
  let g := answer Sample.handler (groups_getGroupData (JStr "chess")) (final o) in
  let g_ts := answer Sample.handler (groups_getGroupData (JStr "chess"))
                     (final o_ts) in
  (result o = inr g ∧ GroupData.system g = false ∧ GroupData.ownerUid g = JNum 42)
  ∧ (result o_ts = inr g_ts ∧ GroupData.system g_ts = false
     ∧ GroupData.ownerUid g_ts = JNum 42).
Proof.
  intros request o o_ts g g_ts. split.
  - assert (Hok : result o = inr g) by reflexivity.
    split; [exact Hok|].
    destruct (proj1 (create_forces_owner_and_system Sample.handler
                Sample.isPrivilegeGroup (Sample.caller 42) request Sample.world g)
                Hok)
      as (_ & _ & _ & _ & Hround).
    destruct (Hround (Ref_create_keeps_request _) (Ref_sinks_write_only _))
      as (Hsys & Hown & _).
    split; [exact Hsys|exact Hown].
  - assert (Hok : result o_ts = inr g_ts) by reflexivity.
    split; [exact Hok|].
    destruct (proj2 (create_forces_owner_and_system Sample.handler
                Sample.isPrivilegeGroup (Sample.caller 42) request Sample.world g_ts)
                Hok)
      as (_ & _ & _ & _ & _ & Hround).
    destruct (Hround (Ref_create_keeps_request _) (Ref_sinks_write_only _))
      as (Hsys & Hown & _).
    split; [exact Hsys|exact Hown].
Defined.

(** ** Failures of the audit log and of the notification store *)

Section Escalation.
Context {World : Type} (h : Handler World).

(** An awaited command that fails rejects the whole call, there and then:
    the failure is the result and the failed command is the last call. *)
Lemma failure_escalates {A : Type} (p : Prog A) (w : World) (c : Command)
    (r : string) :
  Failed c r ∈ calls (run h p w) →
  result (run h p w) = inl (Collaborator r)
  ∧ ∃ before : list Call, calls (run h p w) = (before ++ [Failed c r])%list.
Proof.
  revert w; induction p as [a|f|q k IH|c0 k IH|c0 k IH]; intros w; simpl.
  - by intros ?%elem_of_nil.
  - by intros ?%elem_of_nil.
  - intros [?|Hin]%elem_of_cons; [done|].
    destruct (IH _ _ Hin) as [Hr [before Hb]].
    split; [done|]. exists (Asked q :: before). by rewrite Hb.
  - destruct (execute h c0 w) as [[r0|a] w'] eqn:E; simpl.
    + intros [[= <- <-]|?%elem_of_nil]%elem_of_cons; [|done].
      split; [done|]. by exists [].
    + intros [?|Hin]%elem_of_cons; [done|].
      destruct (IH _ _ Hin) as [Hr [before Hb]].
      split; [done|]. exists (Did c0 :: before). by rewrite Hb.
  - intros [?|Hin]%elem_of_cons; [done|].
    destruct (IH _ Hin) as [Hr [before Hb]].
    split; [done|]. exists (Detached c0 :: before). by rewrite Hb.
Qed.

(** In a fail-fast program a failed write to a sink comes after the
    mutation, which succeeded. *)
Lemma sink_failure_follows_mutation {A : Type} (noop : bool) (p : Prog A) :
  FailFast noop p → ∀ (w : World) (c : Command) (r : string),
  Failed c r ∈ calls (run h p w) → is_mutation c = false →
  ∃ m, is_mutation m = true ∧ Did m ∈ calls (run h p w).
Proof.
  induction 1 as [a Hn|f|q k _ IH|c0 k Hc0 Hk]; intros w c r; simpl.
  - by intros ?%elem_of_nil.
  - by intros ?%elem_of_nil.
  - intros [?|Hin]%elem_of_cons Hc; [done|].
    destruct (IH _ _ _ _ Hin Hc) as (m & Hm & Hd).
    exists m. split; [done|]. apply elem_of_cons. by right.
  - destruct (execute h c0 w) as [[r0|a] w'] eqn:E; simpl.
    + intros [[= <- <-]|?%elem_of_nil]%elem_of_cons Hc; [congruence|done].
    + intros _ _. exists c0. split; [done|]. apply elem_of_cons. by left.
Qed.
(** In a program that awaits every command, no call is detached, and
    the run resolves only if every command it issued has succeeded. *)
Lemma awaited_run {A : Type} (p : Prog A) :
  Awaited p → ∀ w : World,
  (∀ c, Detached c ∉ calls (run h p w))
  ∧ (∀ a, result (run h p w) = inr a →
       ∀ c, c ∈ effects (run h p w) → Did c ∈ calls (run h p w)).
Proof.
  induction 1 as [a|f|q k _ IH|c0 k _ IH]; intros w; simpl.
  - split; [intros c ?%elem_of_nil; done|]. intros _ _ c ?%elem_of_nil. done.
  - split; [intros c ?%elem_of_nil; done|]. done.
  - destruct (IH (answer h q w) w) as [Hd Hok].
    split.
    + intros c [?|Hin]%elem_of_cons; [done|]. by apply (Hd c).
    + intros a Ha c Hin. apply elem_of_cons. right. by apply (Hok a).
  - destruct (execute h c0 w) as [[r0|x] w'] eqn:E; simpl.
    + split; [|done].
      intros c [?|?%elem_of_nil]%elem_of_cons; done.
    + destruct (IH x w') as [Hd Hok].
      split.
      * intros c [?|Hin]%elem_of_cons; [done|]. by apply (Hd c).
      * intros a Ha c Hin. apply elem_of_cons.
        unfold effects in Hin. simpl in Hin.
        apply elem_of_cons in Hin as [->|Hin]; [by left|right].
        by apply (Hok a).
Qed.
End Escalation.

Section Awaits.
Context (rt : Runtime)
        (systemGroups ephemeralGroups : list string)
        (isPrivilegeGroup : JsVal → bool)
        (slugify validator_escape : JsVal → string).

(** Every operation of the API awaits every command it issues, the
    emission of its audit record included. *)
Lemma invoke_awaited (op : Operation) (caller : Caller.t) (data : option Data.t) :
  Awaited (invoke rt systemGroups ephemeralGroups isPrivilegeGroup slugify
                  validator_escape op caller data).
Proof.
  destruct op; unfold invoke, create, update, _delete, join, leave, grant, rescind,
    payload, isOwner, logGroupEvent, throw, ask, perform, mret, Prog_ret.
  all: awaits.
Qed.
End Awaits.

(** C9, as amended.  For every operation of the API ([src/api/groups]:
    create, update, delete, join, leave, grant, rescind), a failure of the
    emission of the audit record or of a notification command is
    escalated to the caller.  Every command is awaited, none is started
    and left to itself, so that a call resolves only if every command it
    issued has succeeded, the audit and notification commands among them;
    when one of these fails the primary mutation has committed before it,
    the call is rejected with the collaborator's failure, and the failed
    command is the last call of the run: the committed mutation is not
    unwound and nothing is retried.  The [create] of [src/api/groups.ts]
    is the exception, its audit call not being awaited: once the directory
    has created the group it resolves with the record, whatever becomes of
    the audit record. *)
Theorem sink_failure_is_escalated (rt : Runtime) {World : Type} (h : Handler World)
    (systemGroups ephemeralGroups : list string) (isPrivilegeGroup : JsVal → bool)
    (slugify validator_escape : JsVal → string)
    (op : Operation) (caller : Caller.t) (data : option Data.t) (w : World) :
  let o := run h (invoke rt systemGroups ephemeralGroups isPrivilegeGroup slugify
                         validator_escape op caller data) w in
  let o_ts := run h (GroupsTs.create isPrivilegeGroup caller data) w in
  (∀ c, Detached c ∉ calls o)
  ∧ (∀ a, result o = inr a → ∀ c, c ∈ effects o → Did c ∈ calls o)
  ∧ (∀ c r, is_audit c = true ∨ is_notification c = true →
       Failed c r ∈ calls o →
       (∃ m, is_mutation m = true ∧ Did m ∈ calls o)
       ∧ result o = inl (Collaborator r)
       ∧ ∃ before : list Call, calls o = (before ++ [Failed c r])%list)
  ∧ (∀ d g w1, data = Some d →
       create_admitted h isPrivilegeGroup caller data w = true →
       execute h (groups_create (forced caller d)) w = (inr g, w1) →
       result o_ts = inr g
       ∧ Detached (events_log (group_audit caller "group-create" (Data.name d)))
         ∈ calls o_ts).
Proof.
  intros o o_ts.
  destruct (awaited_run h _
              (invoke_awaited rt systemGroups ephemeralGroups isPrivilegeGroup
                              slugify validator_escape op caller data) w)
    as [Hdet Hok].
  split; [exact Hdet|]. split; [exact Hok|]. split.
  - intros c r Hsink Hin.
    assert (Hc : is_mutation c = false).
    { destruct c; try reflexivity; destruct Hsink; discriminate. }
    split.
    + exact (sink_failure_follows_mutation h _ _
               (invoke_fail_fast rt systemGroups ephemeralGroups isPrivilegeGroup
                                 slugify validator_escape op caller data)
               w c r Hin Hc).
    + exact (failure_escalates h _ w c r Hin).
  - intros d g w1 -> Hadm E. subst o_ts.
    unfold create_admitted in Hadm.
    apply andb_true_iff in Hadm as [Huid Hadm].
    apply andb_true_iff in Hadm as [Hname Hcan].
    apply negb_true_iff in Hname.
    unfold GroupsTs.create, GroupsTs.logGroupEvent, group_audit, mret, Prog_ret.
    rewrite Huid. simpl. rewrite Hname. simpl. rewrite Hcan. simpl.
    fold (forced caller d). rewrite E. simpl.
    split; [done|].
    apply elem_of_cons; right. apply elem_of_cons; right.
    apply elem_of_cons; by left.
Qed.

(** While the audit log is down, the owner of "team" removes member 42:
    the member is removed and the owner notified, and the call is rejected
    with the failure of [events.log]. *)
Lemma sink_failure_is_escalated_witness :
  let d := Data.mk JUndefined JUndefined JUndefined (JStr "team") (JStr "42") in
  let o := run Sample.handler
             (invoke Sample.runtime Sample.systemGroups Sample.ephemeralGroups
                     Sample.isPrivilegeGroup Sample.slugify Sample.validator_escape
                     op_leave (Sample.caller 7) (Some d))
             Sample.world_audit_down in
  answer Sample.handler (groups_isMember (JStr "42") (JStr "team")) (final o) = false
  ∧ result o = inl (Collaborator "audit log unavailable").
Proof.
  intros d o. split; [reflexivity|].
  refine (proj1 (proj2 (proj1 (proj2 (proj2 (sink_failure_is_escalated
            Sample.runtime Sample.handler Sample.systemGroups
            Sample.ephemeralGroups Sample.isPrivilegeGroup Sample.slugify
            Sample.validator_escape op_leave (Sample.caller 7) (Some d)
            Sample.world_audit_down)))
            (events_log (audit_of (Sample.caller 7) d "group-leave" (JStr "team")))
            "audit log unavailable" _ _))).
  - left. reflexivity.
  - apply list_elem_of_In. vm_compute.
    repeat (first [left; reflexivity | right]).
Defined.

(** C9, as stated, fails: with the membership mutation committed and the
    owners notified, a failure of the audit log rejects the call. *)
Lemma sink_failure_rejects_the_call :
  ¬ (∀ (rt : Runtime) (World : Type) (h : Handler World)
       (systemGroups ephemeralGroups : list string)
       (isPrivilegeGroup : JsVal → bool) (slugify validator_escape : JsVal → string)
       (op : Operation) (caller : Caller.t) (data : option Data.t) (w : World),
       let o := run h (invoke rt systemGroups ephemeralGroups isPrivilegeGroup slugify
                              validator_escape op caller data) w in
       (∃ m, is_mutation m = true ∧ Did m ∈ calls o) →
       ∃ a, result o = inr a).
Proof.
  intros H.
  specialize (H Sample.runtime Ref.World Sample.handler Sample.systemGroups
                Sample.ephemeralGroups Sample.isPrivilegeGroup Sample.slugify
                Sample.validator_escape op_leave (Sample.caller 7)
                (Sample.on "team" (JStr "42")) Sample.world_audit_down).
  destruct H as [a Ha].
  - exists (groups_leave (JStr "team") (JStr "42")). split; [reflexivity|].
    apply list_elem_of_In. vm_compute.
    repeat (first [left; reflexivity | right]).
  - vm_compute in Ha. discriminate Ha.
Qed.

(** ** [grant] and [rescind] *)

Section Ownership.
Context {World : Type} (h : Handler World).

Lemma grant_skips_target_checks (caller : Caller.t) (data : option Data.t)
    (w : World) :
  skips_target_checks (run h (grant caller data) w).
Proof.
  unfold skips_target_checks, grant, payload, isOwner, logGroupEvent.
  destruct data as [d|]; [|simpl; repeat split; try done; intros; not_in_calls].
  guards.
  all: try (repeat split; try done; intros; not_in_calls).
  all: destruct (execute h (groups_ownership_grant _ _) w) as [[r|[]] w1]; simpl.
  all: try (repeat split; try done; intros; not_in_calls).
  all: destruct (execute h (events_log _) w1) as [[r|[]] w2]; simpl.
  all: repeat split; try done; intros; not_in_calls.
Qed.

Lemma rescind_skips_target_checks (caller : Caller.t) (data : option Data.t)
    (w : World) :
  skips_target_checks (run h (rescind caller data) w).
Proof.
  unfold skips_target_checks, rescind, payload, isOwner, logGroupEvent.
  destruct data as [d|]; [|simpl; repeat split; try done; intros; not_in_calls].
  guards.
  all: try (repeat split; try done; intros; not_in_calls).
  all: destruct (execute h (groups_ownership_rescind _ _) w) as [[r|[]] w1]; simpl.
  all: try (repeat split; try done; intros; not_in_calls).
  all: destruct (execute h (events_log _) w1) as [[r|[]] w2]; simpl.
  all: repeat split; try done; intros; not_in_calls.
Qed.

(** Past the gate, [grant] performs the ownership mutation and, when that
    succeeded, emits the audit record. *)
Lemma grant_past_gate (caller : Caller.t) (d : Data.t) (w : World) :
  let g := answer h (groups_getGroupNameByGroupSlug (Data.slug d)) w in
  result (run h (isOwner caller g) w) = inr () →
  effects (run h (grant caller (Some d)) w) =
  groups_ownership_grant (Data.uid d) g
  :: match (execute h (groups_ownership_grant (Data.uid d) g) w).1 with
     | inr _ => [events_log (audit_of caller d "group-owner-grant" g)]
     | inl _ => []
     end.
Proof.
  simpl. unfold grant, payload, isOwner, logGroupEvent, audit_of.
  guards; try discriminate.
  all: intros _.
  all: destruct (execute h (groups_ownership_grant _ _) w) as [[r|[]] w1]; simpl;
    [done|].
  all: by destruct (execute h (events_log _) w1) as [[r|[]] w2].
Qed.

Lemma rescind_past_gate (caller : Caller.t) (d : Data.t) (w : World) :
  let g := answer h (groups_getGroupNameByGroupSlug (Data.slug d)) w in
  result (run h (isOwner caller g) w) = inr () →
  effects (run h (rescind caller (Some d)) w) =
  groups_ownership_rescind (Data.uid d) g
  :: match (execute h (groups_ownership_rescind (Data.uid d) g) w).1 with
     | inr _ => [events_log (audit_of caller d "group-owner-rescind" g)]
     | inl _ => []
     end.
Proof.
  simpl. unfold rescind, payload, isOwner, logGroupEvent, audit_of.
  guards; try discriminate.
  all: intros _.
  all: destruct (execute h (groups_ownership_rescind _ _) w) as [[r|[]] w1]; simpl;
    [done|].
  all: by destruct (execute h (events_log _) w1) as [[r|[]] w2].
Qed.

(** C10.  [grant] and [rescind] do not validate the target member: no run
    of either asks whether the target user exists or is a member of the
    group, and none is rejected with invalid-uid or invalid-data.  For every
    caller who passes the isOwner gate the ownership mutation is performed
    on the target as given, and its audit record is emitted once the
    mutation has succeeded, whatever the directory would answer about the
    target's existence or membership, also when the target is the caller. *)
Theorem grant_rescind_skip_target_checks (caller : Caller.t)
    (data : option Data.t) (w : World) :
  skips_target_checks (run h (grant caller data) w)
  ∧ skips_target_checks (run h (rescind caller data) w)
  ∧ ∀ d : Data.t, data = Some d →
      let g := answer h (groups_getGroupNameByGroupSlug (Data.slug d)) w in
      result (run h (isOwner caller g) w) = inr () →
      effects (run h (grant caller data) w) =
        groups_ownership_grant (Data.uid d) g
        :: match (execute h (groups_ownership_grant (Data.uid d) g) w).1 with
           | inr _ => [events_log (audit_of caller d "group-owner-grant" g)]
           | inl _ => []
           end
      ∧ effects (run h (rescind caller data) w) =
        groups_ownership_rescind (Data.uid d) g
        :: match (execute h (groups_ownership_rescind (Data.uid d) g) w).1 with
           | inr _ => [events_log (audit_of caller d "group-owner-rescind" g)]
           | inl _ => []
           end.
Proof.
  split; [apply grant_skips_target_checks|].
  split; [apply rescind_skips_target_checks|].
  intros d -> g Hgate. split.
  - by apply grant_past_gate.
  - by apply rescind_past_gate.
Qed.
End Ownership.

(** User 7, owner of "team", grants ownership to 12345, who does not exist,
    and rescinds their own. *)
Lemma grant_rescind_skip_target_checks_witness :
  answer Sample.handler (user_exists (JNum 12345)) Sample.world = false
  ∧ effects (run Sample.handler (grant (Sample.caller 7) (Sample.on "team" (JNum 12345)))
                 Sample.world)
    = [ groups_ownership_grant (JNum 12345) (JStr "team");
        events_log (audit_of (Sample.caller 7)
                      (Data.mk JUndefined JUndefined JUndefined (JStr "team")
                               (JNum 12345))
                      "group-owner-grant" (JStr "team")) ]
  ∧ effects (run Sample.handler (rescind (Sample.caller 7) (Sample.on "team" (JNum 7)))
                 Sample.world)
    = [ groups_ownership_rescind (JNum 7) (JStr "team");
        events_log (audit_of (Sample.caller 7)
                      (Data.mk JUndefined JUndefined JUndefined (JStr "team") (JNum 7))
                      "group-owner-rescind" (JStr "team")) ].
Proof.
  split; [reflexivity|]. split.
  - refine (proj1 (proj2 (proj2 (grant_rescind_skip_target_checks Sample.handler
              (Sample.caller 7) (Sample.on "team" (JNum 12345)) Sample.world))
              _ eq_refl _)).
    reflexivity.
  - refine (proj2 (proj2 (proj2 (grant_rescind_skip_target_checks Sample.handler
              (Sample.caller 7) (Sample.on "team" (JNum 7)) Sample.world))
              _ eq_refl _)).
    reflexivity.
Defined.

(** ** The [create] of [src/api/groups.ts] *)

Section CreateTs.
Context {World : Type} (h : Handler World).
Context (isPrivilegeGroup : JsVal → bool).

(** Both versions of [create] issue the same commands with the same
    payloads. *)
Lemma GroupsTs_create_same_effects (caller : Caller.t) (data : option Data.t)
    (w : World) :
  effects (run h (GroupsTs.create isPrivilegeGroup caller data) w)
  = effects (run h (create isPrivilegeGroup caller data) w).
Proof.
  unfold GroupsTs.create, create, GroupsTs.logGroupEvent, logGroupEvent, mret, Prog_ret.
  destruct data as [d|]; guards; try done.
  destruct (execute h (groups_create _) w) as [[r|g] w1]; simpl; [done|].
  by destruct (execute h (events_log _) w1) as [[r|[]] w2].
Qed.

(** The version that does not await the audit call resolves whenever the
    directory created the group, whether the audit log took the record or
    not. *)
Lemma GroupsTs_create_detached_audit (caller : Caller.t) (d : Data.t) (w w1 : World)
    (g : GroupData.t) :
  truthy (Caller.uid caller) = true →
  negb (typeof_string (Data.name d)) || isPrivilegeGroup (Data.name d) = false →
  answer h (privileges_global_can "group:create" (Caller.uid caller)) w = true →
  execute h (groups_create (forced caller d)) w = (inr g, w1) →
  result (run h (GroupsTs.create isPrivilegeGroup caller (Some d)) w) = inr g.
Proof.
  intros Huid Hname Hcan E.
  unfold GroupsTs.create, GroupsTs.logGroupEvent, mret, Prog_ret.
  rewrite Huid. simpl. rewrite Hname. simpl. rewrite Hcan. simpl.
  fold (forced caller d). rewrite E. done.
Qed.
End CreateTs.

(** ** Sample runs *)

(** The comparison with 0 on the values that are not strings, whatever the
    runtime. *)
Example le_zero_samples (rt : Runtime) :
  le_zero rt (JNum 0) = true ∧ le_zero rt (JNum 7) = false
  ∧ le_zero rt JNull = true ∧ le_zero rt JUndefined = false
  ∧ le_zero rt (JBool false) = true.
Proof. repeat split; reflexivity. Qed.

(** Identifiers that do not parse are never the same: NaN differs from NaN. *)
Example unparsable_is_not_self (rt : Runtime) (a : JsVal) :
  parseInt10 rt a = NaN → same_parsed_uid rt a a = false.
Proof. unfold same_parsed_uid. by intros ->. Qed.

(** On the runtime of the sample runs the number 42 and the string "42"
    are the same identifier. *)
Example same_uid_across_types :
  same_parsed_uid Sample.runtime (JNum 42) (JStr "42") = true.
Proof. reflexivity. Qed.

(** Section 8 of the spec: user 42, without any role, joins the public
    group "book-club": a direct join with its group-join audit record. *)
Example scenario_join_public_group :
  let o := run Sample.handler
             (join Sample.runtime Sample.systemGroups Sample.isPrivilegeGroup
                   (Sample.caller 42)
                   (Sample.on "book-club" (JNum 42)))
             Sample.world in
  result o = inr ()
  ∧ effects o =
    [ groups_join (JStr "book-club") (JNum 42);
      events_log (audit_of (Sample.caller 42)
                    (Data.mk JUndefined JUndefined JUndefined (JStr "book-club")
                             (JNum 42))
                    "group-join" (JStr "book-club")) ].
Proof. split; reflexivity. Qed.

(** Section 8: user 42 asks to join "secret", private with join requests
    disabled. *)
Example scenario_join_disabled :
  let o := run Sample.handler
             (join Sample.runtime Sample.systemGroups Sample.isPrivilegeGroup
                   (Sample.caller 42)
                   (Sample.on "secret" (JNum 42)))
             Sample.world in
  result o = inl (Typed group_join_disabled) ∧ effects o = [].
Proof. split; reflexivity. Qed.

(** Section 8: owner 7 asks that 99, who is not a member of "team", leave. *)
Example scenario_leave_non_member :
  let o := run Sample.handler
             (leave Sample.runtime Sample.slugify Sample.validator_escape
                   (Sample.caller 7)
                    (Sample.on "team" (JNum 99)))
             Sample.world in
  result o = inr () ∧ effects o = [] ∧ final o = Sample.world.
Proof. repeat split; reflexivity. Qed.

(** A guest acting on themself is stopped by the identifier check that
    opens [leave], before the group is looked at. *)
Example scenario_guest_leaves_administrators :
  let o := run Sample.handler
             (leave Sample.runtime Sample.slugify Sample.validator_escape
                   (Sample.caller 0)
                    (Sample.on "administrators" (JNum 0)))
             Sample.world in
  result o = inl (Typed invalid_uid) ∧ calls o = [].
Proof. split; reflexivity. Qed.

(** A user without standing who adds someone else to a private group: the
    silent no-op of the fifth rule. *)
Example scenario_join_third_party :
  let o := run Sample.handler
             (join Sample.runtime Sample.systemGroups Sample.isPrivilegeGroup
                   (Sample.caller 42)
                   (Sample.on "team" (JNum 99)))
             Sample.world in
  result o = inr () ∧ effects o = [] ∧ observed_decision o = Some NoOp.
Proof. repeat split; reflexivity. Qed.

(** While the audit log is down, user 42 joins "book-club": the member is
    added, and the call is rejected with the failure of [events.log]. *)
Example scenario_join_audit_down :
  let o := run Sample.handler
             (join Sample.runtime Sample.systemGroups Sample.isPrivilegeGroup
                   (Sample.caller 42)
                   (Sample.on "book-club" (JNum 42)))
             Sample.world_audit_down in
  result o = inl (Collaborator "audit log unavailable")
  ∧ answer Sample.handler (groups_isMember (JNum 42) (JStr "book-club")) (final o)
    = true.
Proof. split; reflexivity. Qed.

(** The [create] that does not await its audit call resolves in the same
    situation. *)
Example scenario_create_ts_audit_down :
  let request := Data.mk (JStr "chess") JUndefined JUndefined JUndefined JUndefined in
  let o := run Sample.handler
             (GroupsTs.create Sample.isPrivilegeGroup (Sample.caller 42) (Some request))
             Sample.world_audit_down in
  let o' := run Sample.handler
              (create Sample.isPrivilegeGroup (Sample.caller 42) (Some request))
              Sample.world_audit_down in
  (∃ g, result o = inr g)
  ∧ result o' = inl (Collaborator "audit log unavailable").
Proof. split; [eexists|]; reflexivity. Qed.

(** * Further properties of the operations *)

(** ** The operations behind the isOwner gate: [update], [delete], [grant],
    [rescind] *)

Section Gated.
Context {World : Type} (h : Handler World).
Context (systemGroups ephemeralGroups : list string).

(** X1.  [update], [delete], [grant] and [rescind] have no test of their
    own for a slug that does not resolve: whatever the lookup yields goes to
    the gate.  When it is not a string, a slug without a group included, the
    call is rejected with invalid-group-name, and when the caller does not
    pass the gate, with no-privileges; either way no command is performed
    and the world is as it was. *)
Theorem gated_operations_refuse (caller : Caller.t) (d : Data.t) (w : World) :
  let g := answer h (groups_getGroupNameByGroupSlug (Data.slug d)) w in
  let refused {A : Type} (o : Outcome World A) (e : Error) :=
    result o = inl (Typed e) ∧ effects o = [] ∧ final o = w in
  (typeof_string g = false →
   refused (run h (update caller (Some d)) w) invalid_group_name
   ∧ refused (run h (_delete systemGroups ephemeralGroups caller (Some d)) w)
             invalid_group_name
   ∧ refused (run h (grant caller (Some d)) w) invalid_group_name
   ∧ refused (run h (rescind caller (Some d)) w) invalid_group_name)
  ∧ (typeof_string g = true → spec_isOwner h caller g w = false →
     refused (run h (update caller (Some d)) w) no_privileges
     ∧ refused (run h (_delete systemGroups ephemeralGroups caller (Some d)) w)
               no_privileges
     ∧ refused (run h (grant caller (Some d)) w) no_privileges
     ∧ refused (run h (rescind caller (Some d)) w) no_privileges).
Proof.
  intros g refused. unfold refused, update, _delete, grant, rescind, payload,
    isOwner, spec_isOwner. fold g.
  split.
  - intros Hty. simpl. fold g. rewrite Hty. simpl. done.
  - intros Hty Hgate. simpl. fold g. rewrite Hty. simpl.
    replace (negb _) with true by (symmetry; by apply negb_true_iff).
    simpl. done.
Qed.

(** X2.  Past the gate [update] performs one command and no other: the
    directory's update of the resolved group, with the payload as the
    caller sent it except that the slug is removed; [system] and [ownerUid]
    are not overwritten as [create] overwrites them, and no audit record is
    emitted.  When the update succeeded the call returns the record looked
    up, in the world the update left, under the new name if the payload has
    one and under the resolved name otherwise; when it failed the call is
    rejected with that failure. *)
Theorem update_past_gate (caller : Caller.t) (d : Data.t) (w : World) :
  let g := answer h (groups_getGroupNameByGroupSlug (Data.slug d)) w in
  let o := run h (update caller (Some d)) w in
  let sent := Data.delete_slug d in
  typeof_string g = true → spec_isOwner h caller g w = true →
  effects o = [groups_update g sent]
  ∧ Data.slug sent = JUndefined
  ∧ (Data.name sent, Data.ownerUid sent, Data.system sent, Data.uid sent)
    = (Data.name d, Data.ownerUid d, Data.system d, Data.uid d)
  ∧ final o = (execute h (groups_update g sent) w).2
  ∧ result o =
    match (execute h (groups_update g sent) w).1 with
    | inr _ => inr (answer h (groups_getGroupData (updated_name d g)) (final o))
    | inl reason => inl (Collaborator reason)
    end.
Proof.
  intros g o sent Hty Hgate. subst o sent.
  unfold update, isOwner, spec_isOwner, updated_name in *. fold g in Hgate |- *.
  simpl. fold g. rewrite Hty. simpl. rewrite Hgate. simpl.
  by destruct (execute h (groups_update g (Data.delete_slug d)) w) as [[r|[]] w1].
Qed.

(** X3.  Past the gate, [delete] of a group whose name is neither in the
    system-group set nor in the ephemeral-group set destroys the resolved
    group and then emits the group-delete audit record; when the directory
    fails to destroy it the call is rejected with that failure and no
    audit record is emitted. *)
Theorem delete_unprotected_group (caller : Caller.t) (d : Data.t) (w : World)
    (g : string) :
  let o := run h (_delete systemGroups ephemeralGroups caller (Some d)) w in
  answer h (groups_getGroupNameByGroupSlug (Data.slug d)) w = JStr g →
  spec_isOwner h caller (JStr g) w = true →
  ¬ In g systemGroups → ¬ In g ephemeralGroups →
  match execute h (groups_destroy (JStr g)) w with
  | (inr _, w1) =>
      effects o = [ groups_destroy (JStr g);
                    events_log (group_audit caller "group-delete" (JStr g)) ]
      ∧ final o = (execute h (events_log
                                (group_audit caller "group-delete" (JStr g))) w1).2
      ∧ (result o = inr () ↔
         (execute h (events_log (group_audit caller "group-delete" (JStr g))) w1).1
         = inr ())
  | (inl reason, w1) =>
      effects o = [groups_destroy (JStr g)]
      ∧ final o = w1 ∧ result o = inl (Collaborator reason)
  end.
Proof.
  intros o Hg Hgate Hsys Heph. subst o.
  assert (Hinc : includes systemGroups (JStr g) || includes ephemeralGroups (JStr g)
                 = false).
  { apply orb_false_iff. split; apply not_true_is_false; by rewrite includes_In. }
  unfold _delete, payload, isOwner, logGroupEvent, spec_isOwner, group_audit in *.
  simpl. rewrite Hg. simpl. rewrite Hgate. simpl.
  simpl in Hinc. rewrite Hinc. simpl.
  destruct (execute h (groups_destroy (JStr g)) w) as [[r|[]] w1]; simpl; [done|].
  by destruct (execute h (events_log _) w1) as [[r|[]] w2].
Qed.
End Gated.

(** A caller without standing and a slug without a group: both refused, the
    first with no-privileges, the second with invalid-group-name. *)
Lemma gated_operations_refuse_witness :
  result (run Sample.handler (update (Sample.caller 42) (Sample.on "team" JUndefined))
              Sample.world)
  = inl (Typed no_privileges)
  ∧ result (run Sample.handler (grant (Sample.caller 7) (Sample.on "nowhere" (JNum 42)))
                Sample.world)
    = inl (Typed invalid_group_name).
Proof.
  split.
  - refine (proj1 (proj1 (proj2 (gated_operations_refuse Sample.handler
              Sample.systemGroups Sample.ephemeralGroups (Sample.caller 42)
              (Data.mk JUndefined JUndefined JUndefined (JStr "team") JUndefined)
              Sample.world) _ _))); reflexivity.
  - refine (proj1 (proj1 (proj2 (proj2 (proj1 (gated_operations_refuse Sample.handler
              Sample.systemGroups Sample.ephemeralGroups (Sample.caller 7)
              (Data.mk JUndefined JUndefined JUndefined (JStr "nowhere") (JNum 42))
              Sample.world) _))))); reflexivity.
Defined.

(** The owner of "team" renames it "crew" and gets the record of "crew". *)
Lemma update_past_gate_witness :
  let request := Data.mk (JStr "crew") JUndefined (JBool true) (JStr "team") JUndefined in
  let o := run Sample.handler (update (Sample.caller 7) (Some request)) Sample.world in
  effects o = [groups_update (JStr "team") (Data.delete_slug request)]
  ∧ ∃ g, result o = inr g ∧ GroupData.name g = JStr "crew".
Proof.
  intros request o. split; [|eexists; split; reflexivity].
  refine (proj1 (update_past_gate Sample.handler (Sample.caller 7) request
                   Sample.world _ _)); reflexivity.
Defined.

(** The owner of "team" deletes it. *)
Lemma delete_unprotected_group_witness :
  let o := run Sample.handler
             (_delete Sample.systemGroups Sample.ephemeralGroups (Sample.caller 7)
                      (Sample.on "team" JUndefined))
             Sample.world in
  effects o = [ groups_destroy (JStr "team");
                events_log (group_audit (Sample.caller 7) "group-delete" (JStr "team")) ]
  ∧ answer Sample.handler (groups_getGroupNameByGroupSlug (JStr "team")) (final o)
    = JNull.
Proof.
  intros o. split; [|reflexivity].
  assert (H := delete_unprotected_group Sample.handler Sample.systemGroups
                 Sample.ephemeralGroups (Sample.caller 7)
                 (Data.mk JUndefined JUndefined JUndefined (JStr "team") JUndefined)
                 Sample.world "team").
  simpl in H. apply H; try reflexivity.
  - intros [?|[?|[]]]; discriminate.
  - intros [?|[?|[]]]; discriminate.
Defined.

(** ** An absent payload *)

(** X4.  Called without a payload, the operations do not agree on the
    error: [update], [join] and [leave] reject with invalid-data; [create]
    does so only for a caller with an identifier, a caller without one is
    rejected with no-privileges first; [delete], [grant] and [rescind] have
    no test and read the slug of the absent payload, a [TypeError].  None
    of them makes any call. *)
Theorem absent_payload (rt : Runtime) {World : Type} (h : Handler World)
    (systemGroups ephemeralGroups : list string) (isPrivilegeGroup : JsVal → bool)
    (slugify validator_escape : JsVal → string)
    (op : Operation) (caller : Caller.t) (w : World) :
  let o := run h (invoke rt systemGroups ephemeralGroups isPrivilegeGroup slugify
                         validator_escape op caller None) w in
  calls o = [] ∧ final o = w
  ∧ result o =
    inl match op with
        | op_create =>
            if truthy (Caller.uid caller) then Typed invalid_data
            else Typed no_privileges
        | op_update | op_join | op_leave => Typed invalid_data
        | op_delete | op_grant | op_rescind => TypeError
        end.
Proof.
  destruct op; simpl; try done.
  unfold create. by destruct (truthy (Caller.uid caller)).
Qed.

(** ** [create] *)

Section CreateChecks.
Context {World : Type} (h : Handler World).
Context (isPrivilegeGroup : JsVal → bool).

(** X5.  [create] asks the directory to create a group exactly when the
    caller has an identifier, the payload is present, its name is a string
    that is not a privilege-group name, and the caller holds the
    group:create capability.  A request that fails one of the first three
    tests is rejected without any call at all, with no-privileges for a
    caller without identifier, else invalid-data for an absent payload,
    else invalid-group-name; the capability is looked up only for a
    request that passed them, and when it is denied that lookup is the
    only call and the error is no-privileges.  When the directory fails to
    create the group no audit record is emitted. *)
Theorem create_reaches_directory_iff (caller : Caller.t) (data : option Data.t)
    (w : World) :
  let o := run h (create isPrivilegeGroup caller data) w in
  let can := privileges_global_can "group:create" (Caller.uid caller) in
  (create_well_formed isPrivilegeGroup caller data = false →
   calls o = [] ∧ final o = w
   ∧ result o =
     inl (Typed (if negb (truthy (Caller.uid caller)) then no_privileges
                 else match data with
                      | None => invalid_data
                      | Some _ => invalid_group_name
                      end)))
  ∧ (create_well_formed isPrivilegeGroup caller data = true →
     answer h can w = false →
     calls o = [Asked can] ∧ final o = w
     ∧ result o = inl (Typed no_privileges))
  ∧ (create_well_formed isPrivilegeGroup caller data = true →
     answer h can w = true →
     create_admitted h isPrivilegeGroup caller data w = true
     ∧ ∃ d, data = Some d
          ∧ effects o =
            groups_create (forced caller d)
            :: match (execute h (groups_create (forced caller d)) w).1 with
               | inr _ => [events_log (group_audit caller "group-create" (Data.name d))]
               | inl _ => []
               end)
  ∧ (create_admitted h isPrivilegeGroup caller data w = false → effects o = []).
Proof.
  unfold create_well_formed, create_admitted, create, logGroupEvent, group_audit,
    forced.
  destruct data as [d|]; simpl.
  - destruct (truthy (Caller.uid caller)); simpl; [|done].
    destruct (negb (typeof_string (Data.name d)) || isPrivilegeGroup (Data.name d));
      simpl; [done|].
    destruct (answer h (privileges_global_can _ _) w); simpl; [|done].
    split; [done|]. split; [done|]. split; [|done].
    intros _ _. split; [done|]. exists d. split; [done|].
    destruct (execute h (groups_create _) w) as [[r|g] w1]; simpl; [done|].
    by destruct (execute h (events_log _) w1) as [[r|[]] w2].
  - rewrite andb_false_r.
    by destruct (truthy (Caller.uid caller)).
Qed.
End CreateChecks.

(** A guest who sends a well-formed request is refused with no-privileges
    before any lookup; user 42, who may create groups, is refused a
    privilege-group name; user 7, who may not, is refused after the lookup
    of the capability; user 42 gets the group "chess". *)
Lemma create_reaches_directory_iff_witness :
  let chess := Data.mk (JStr "chess") JUndefined JUndefined JUndefined JUndefined in
  let cid := Data.mk (JStr "cid:1:privileges:find") JUndefined JUndefined JUndefined
                     JUndefined in
  let o (uid : Z) (d : Data.t) :=
    run Sample.handler (create Sample.isPrivilegeGroup (Sample.caller uid) (Some d))
        Sample.world in
  (calls (o 0 chess) = [] ∧ result (o 0 chess) = inl (Typed no_privileges))
  ∧ (calls (o 42 cid) = [] ∧ result (o 42 cid) = inl (Typed invalid_group_name))
  ∧ calls (o 7 chess)
    = [Asked (privileges_global_can "group:create" (JNum 7))]
  ∧ ∃ d, Some chess = Some d
         ∧ effects (o 42 chess)
           = [ groups_create (forced (Sample.caller 42) d);
               events_log (group_audit (Sample.caller 42) "group-create"
                                       (Data.name d)) ].
Proof.
  intros chess cid o. split; [|split; [|split]].
  - destruct (proj1 (create_reaches_directory_iff Sample.handler
              Sample.isPrivilegeGroup (Sample.caller 0) (Some chess) Sample.world)
              eq_refl) as (Hc & _ & Hr).
    split; [exact Hc|exact Hr].
  - destruct (proj1 (create_reaches_directory_iff Sample.handler
              Sample.isPrivilegeGroup (Sample.caller 42) (Some cid) Sample.world)
              eq_refl) as (Hc & _ & Hr).
    split; [exact Hc|exact Hr].
  - exact (proj1 (proj1 (proj2 (create_reaches_directory_iff Sample.handler
              Sample.isPrivilegeGroup (Sample.caller 7) (Some chess) Sample.world))
              eq_refl eq_refl)).
  - destruct (proj1 (proj2 (proj2 (create_reaches_directory_iff Sample.handler
              Sample.isPrivilegeGroup (Sample.caller 42) (Some chess) Sample.world)))
              eq_refl eq_refl) as (_ & d & Hd & Heff).
    exists d. split; [exact Hd|]. injection Hd as <-. exact Heff.
Defined.

(** ** [join]: validation, and who may join what *)

Section JoinMore.
Context (rt : Runtime).
Context {World : Type} (h : Handler World).
Context (systemGroups : list string) (isPrivilegeGroup : JsVal → bool).

(** X6.  The validation guards of [join], in the order of the source, each
    with its error and the lookups made by then: an identifier of the
    caller that is [<= 0] or a target identifier that is falsy is rejected
    with invalid-uid before any lookup; a slug that resolves to nothing
    with no-group after the slug lookup; a system or privilege group asked
    for by a caller who is not a platform administrator with not-allowed
    after the lookup of that standing; a target that does not exist with
    invalid-uid after the group's record, the caller's ownership and the
    target's existence have been looked up.  So [join] is rejected with
    invalid-uid, no-group or not-allowed exactly when one of the guards
    fails, and then it has performed no command; once the guards have
    passed, the only typed error left is group-join-disabled. *)
Theorem join_validation_errors (caller : Caller.t) (d : Data.t) (w : World) :
  let g := answer h (groups_getGroupNameByGroupSlug (Data.slug d)) w in
  let bad_uid := le_zero rt (Caller.uid caller) || negb (truthy (Data.uid d)) in
  let protected :=
    negb (answer h (user_isAdministrator (Caller.uid caller)) w)
    && (includes systemGroups g || isPrivilegeGroup g) in
  let o := run h (join rt systemGroups isPrivilegeGroup caller (Some d)) w in
  (bad_uid = true →
   result o = inl (Typed invalid_uid) ∧ calls o = [] ∧ final o = w)
  ∧ (bad_uid = false → truthy g = false →
     result o = inl (Typed no_group)
     ∧ calls o = [Asked (groups_getGroupNameByGroupSlug (Data.slug d))]
     ∧ final o = w)
  ∧ (bad_uid = false → truthy g = true → protected = true →
     result o = inl (Typed not_allowed)
     ∧ calls o = [ Asked (groups_getGroupNameByGroupSlug (Data.slug d));
                   Asked (user_isAdministrator (Caller.uid caller)) ]
     ∧ final o = w)
  ∧ (bad_uid = false → truthy g = true → protected = false →
     answer h (user_exists (Data.uid d)) w = false →
     result o = inl (Typed invalid_uid)
     ∧ calls o = [ Asked (groups_getGroupNameByGroupSlug (Data.slug d));
                   Asked (user_isAdministrator (Caller.uid caller));
                   Asked (groups_getGroupData g);
                   Asked (groups_ownership_isOwner (Caller.uid caller) g);
                   Asked (user_exists (Data.uid d)) ]
     ∧ final o = w)
  ∧ (join_validated rt h systemGroups isPrivilegeGroup caller d w = false →
     effects o = [] ∧ final o = w
     ∧ ∃ e, result o = inl (Typed e)
            ∧ (e = invalid_uid ∨ e = no_group ∨ e = not_allowed))
  ∧ (join_validated rt h systemGroups isPrivilegeGroup caller d w = true →
     ∀ e, result o = inl (Typed e) → e = group_join_disabled).
Proof.
  intros g bad_uid protected o. subst g bad_uid protected o.
  split; [|split; [|split; [|split; [|split]]]].
  - intros H1. unfold join. simpl. rewrite H1. done.
  - intros H1 H2. unfold join. simpl. rewrite H1. simpl. rewrite H2. done.
  - intros H1 H2 H3. unfold join. simpl. rewrite H1. simpl. rewrite H2. simpl.
    simpl in H3. rewrite H3. done.
  - intros H1 H2 H3 H4. unfold join. simpl. rewrite H1. simpl. rewrite H2. simpl.
    simpl in H3. rewrite H3. simpl. rewrite H4. done.
  - exact (join_not_validated rt h systemGroups isPrivilegeGroup caller d w).
  - unfold join_validated, join, logGroupEvent, mret, Prog_ret.
    paths; intros Hv e He; try discriminate He; settle Hv; try discriminate Hv.
    all: by injection He as <-.
Qed.

(** X7.  A caller who is not a platform administrator cannot get anyone
    into a system group or a privilege group through [join]: no command is
    performed, and once the identifiers and the slug have passed the call
    is rejected with not-allowed.  This holds whatever the table would
    decide, also when the platform disables private groups and the caller
    acts on themself, and also for an owner of the group. *)
Theorem join_protected_group_needs_admin (caller : Caller.t) (d : Data.t)
    (w : World) :
  let g := answer h (groups_getGroupNameByGroupSlug (Data.slug d)) w in
  let o := run h (join rt systemGroups isPrivilegeGroup caller (Some d)) w in
  answer h (user_isAdministrator (Caller.uid caller)) w = false →
  includes systemGroups g || isPrivilegeGroup g = true →
  effects o = [] ∧ final o = w
  ∧ (le_zero rt (Caller.uid caller) = false → truthy (Data.uid d) = true →
     truthy g = true → result o = inl (Typed not_allowed)).
Proof.
  intros g o. subst g o.
  unfold join, logGroupEvent, mret, Prog_ret.
  paths; intros Hadm Hprot; simpl in Hprot;
    try (exfalso;
         match goal with
         | H : negb _ && _ = false |- _ =>
             rewrite Hadm, Hprot in H; discriminate H
         end);
    repeat split; try done; intros; try discriminate.
  all: match goal with
       | E : _ = true |- inl _ = inl _ =>
           rewrite ?H, ?H0, ?H1 in E; discriminate E
       end.
Qed.

Lemma join_validated_admin (caller : Caller.t) (d : Data.t) (w : World) :
  let g := answer h (groups_getGroupNameByGroupSlug (Data.slug d)) w in
  le_zero rt (Caller.uid caller) = false → truthy (Data.uid d) = true →
  truthy g = true →
  answer h (user_isAdministrator (Caller.uid caller)) w = true →
  answer h (user_exists (Data.uid d)) w = true →
  join_validated rt h systemGroups isPrivilegeGroup caller d w = true.
Proof.
  intros g Huid Hduid Hg Hadm Hex. unfold join_validated. fold g.
  by rewrite Huid, Hduid, Hg, Hadm, Hex.
Qed.

(** X8.  A platform administrator's [join] is always a direct join of the
    target, whoever the target is and whatever the group: system groups,
    privilege groups and private groups with join requests disabled
    included.  All it takes is a caller's identifier that is not [<= 0], a
    truthy target identifier, a resolved group and an existing target. *)
Theorem join_by_admin_is_direct (caller : Caller.t) (d : Data.t) (w : World) :
  let g := answer h (groups_getGroupNameByGroupSlug (Data.slug d)) w in
  let o := run h (join rt systemGroups isPrivilegeGroup caller (Some d)) w in
  le_zero rt (Caller.uid caller) = false → truthy (Data.uid d) = true →
  truthy g = true →
  answer h (user_isAdministrator (Caller.uid caller)) w = true →
  answer h (user_exists (Data.uid d)) w = true →
  observed_decision o = Some DirectJoin
  ∧ (undisturbed o →
     effects o = [ groups_join g (Data.uid d);
                   events_log (audit_of caller d "group-join" g) ]
     ∧ result o = inr ()).
Proof.
  intros g o Huid Hduid Hg Hadm Hex. subst o.
  assert (Hv := join_validated_admin caller d w Huid Hduid Hg Hadm Hex).
  assert (Hd : join_decision rt h caller d w = DirectJoin).
  { unfold join_decision, join_table. rewrite Hadm.
    destruct (negb _ && _); [done|]. simpl.
    by rewrite orb_true_r. }
  rewrite (run_join_validated rt h systemGroups isPrivilegeGroup caller d w Hv), Hd.
  apply (observed_join_action h caller d g DirectJoin w).
Qed.


(** X10.  isSelf compares what [parseInt] makes of the two identifiers, and
    NaN is not equal to NaN: when [parseInt] makes NaN of the caller's or
    of the target's identifier, the caller is never taken to act on
    themself, not even when the two identifiers are the same value.  A
    validated [join] is then a direct join for a platform administrator or
    an owner of the group and a silent no-op for anyone else: it is neither
    turned into a membership request nor rejected. *)
Theorem join_unparsable_identifier (caller : Caller.t) (d : Data.t) (w : World) :
  let g := answer h (groups_getGroupNameByGroupSlug (Data.slug d)) w in
  let o := run h (join rt systemGroups isPrivilegeGroup caller (Some d)) w in
  join_validated rt h systemGroups isPrivilegeGroup caller d w = true →
  parseInt10 rt (Caller.uid caller) = NaN ∨ parseInt10 rt (Data.uid d) = NaN →
  same_parsed_uid rt (Caller.uid caller) (Data.uid d) = false
  ∧ observed_decision o
    = Some (if answer h (user_isAdministrator (Caller.uid caller)) w
               || answer h (groups_ownership_isOwner (Caller.uid caller) g) w
            then DirectJoin else NoOp).
Proof.
  intros g o Hv Hnan. subst o.
  assert (Hself : same_parsed_uid rt (Caller.uid caller) (Data.uid d) = false).
  { unfold same_parsed_uid, number_strict_eq.
    destruct Hnan as [-> | ->]; [done|]. by destruct (parseInt10 _). }
  split; [exact Hself|].
  rewrite (run_join_validated rt h systemGroups isPrivilegeGroup caller d w Hv).
  assert (Hd : join_decision rt h caller d w
               = if answer h (user_isAdministrator (Caller.uid caller)) w
                    || answer h (groups_ownership_isOwner (Caller.uid caller) g) w
                 then DirectJoin else NoOp).
  { unfold join_decision, join_table. fold g. rewrite Hself.
    rewrite !andb_false_r. simpl. by rewrite ?andb_false_r. }
  rewrite Hd. apply (observed_join_action h caller d g _ w).
Qed.
End JoinMore.

(** A guest, a slug without a group, user 42 asking for "administrators"
    and a target the platform does not know are each refused by their
    guard, nothing being written; the owner of "secret", asking for
    themself, passes validation and is refused with group-join-disabled. *)
Lemma join_validation_errors_witness :
  let o (uid : Z) (slug : string) (target : JsVal) :=
    run Sample.handler
        (join Sample.runtime Sample.systemGroups Sample.isPrivilegeGroup
              (Sample.caller uid) (Sample.on slug target)) Sample.world in
  result (o 0 "team" (JNum 0)) = inl (Typed invalid_uid)
  ∧ result (o 42 "nowhere" (JNum 42)) = inl (Typed no_group)
  ∧ result (o 42 "administrators" (JNum 42)) = inl (Typed not_allowed)
  ∧ result (o 42 "team" (JNum 1000)) = inl (Typed invalid_uid)
  ∧ effects (o 42 "administrators" (JNum 42)) = []
  ∧ ∀ e, result (o 7 "secret" (JNum 7)) = inl (Typed e) → e = group_join_disabled.
Proof.
  intros o.
  pose (thm uid slug target :=
          join_validation_errors Sample.runtime Sample.handler Sample.systemGroups
            Sample.isPrivilegeGroup (Sample.caller uid)
            (Data.mk JUndefined JUndefined JUndefined (JStr slug) target)
            Sample.world).
  split; [|split; [|split; [|split; [|split]]]].
  - exact (proj1 (proj1 (thm 0 "team" (JNum 0)) eq_refl)).
  - exact (proj1 (proj1 (proj2 (thm 42 "nowhere" (JNum 42))) eq_refl eq_refl)).
  - exact (proj1 (proj1 (proj2 (proj2 (thm 42 "administrators" (JNum 42))))
                    eq_refl eq_refl eq_refl)).
  - exact (proj1 (proj1 (proj2 (proj2 (proj2 (thm 42 "team" (JNum 1000)))))
                    eq_refl eq_refl eq_refl eq_refl)).
  - exact (proj1 (proj1 (proj2 (proj2 (proj2 (proj2
             (thm 42 "administrators" (JNum 42)))))) eq_refl)).
  - exact (proj2 (proj2 (proj2 (proj2 (proj2 (thm 7 "secret" (JNum 7))))))
             eq_refl).
Defined.

(** With private groups disabled platform-wide, user 42 asking to be added
    to "administrators" is still refused. *)
Lemma join_protected_group_needs_admin_witness :
  result (run Sample.handler
            (join Sample.runtime Sample.systemGroups Sample.isPrivilegeGroup
                  (Sample.caller 42)
                  (Sample.on "administrators" (JNum 42))) Sample.world_all_public)
  = inl (Typed not_allowed).
Proof.
  refine (proj2 (proj2 (join_protected_group_needs_admin Sample.runtime Sample.handler
            Sample.systemGroups Sample.isPrivilegeGroup (Sample.caller 42)
            (Data.mk JUndefined JUndefined JUndefined (JStr "administrators")
                     (JNum 42))
            Sample.world_all_public _ _)) _ _ _); reflexivity.
Defined.

(** The platform administrator adds user 42 to "secret", a private group
    with join requests disabled. *)
Lemma join_by_admin_is_direct_witness :
  let o := run Sample.handler
             (join Sample.runtime Sample.systemGroups Sample.isPrivilegeGroup
                   (Sample.caller 1)
                   (Sample.on "secret" (JNum 42))) Sample.world in
  effects o = [ groups_join (JStr "secret") (JNum 42);
                events_log (audit_of (Sample.caller 1)
                              (Data.mk JUndefined JUndefined JUndefined (JStr "secret")
                                       (JNum 42))
                              "group-join" (JStr "secret")) ]
  ∧ result o = inr ().
Proof.
  refine (proj2 (join_by_admin_is_direct Sample.runtime Sample.handler Sample.systemGroups
            Sample.isPrivilegeGroup (Sample.caller 1)
            (Data.mk JUndefined JUndefined JUndefined (JStr "secret") (JNum 42))
            Sample.world _ _ _ _ _) _); try reflexivity.
  intros reason. discriminate.
Defined.


(** A caller and a target that both carry the identifier "me": the caller
    is not taken to act on themself, and, neither an administrator nor an
    owner of the public group, gets a silent no-op. *)
Lemma join_unparsable_identifier_witness :
  let me := Caller.mk (JStr "me") (JStr "10.0.0.1") in
  let d := Data.mk JUndefined JUndefined JUndefined (JStr "club") (JStr "me") in
  let o := run (Told.handler false false false false true)
               (join Sample.runtime Sample.systemGroups Sample.isPrivilegeGroup me
                     (Some d)) () in
  same_parsed_uid Sample.runtime (Caller.uid me) (Data.uid d) = false
  ∧ observed_decision o = Some NoOp.
Proof.
  intros me d o.
  refine (join_unparsable_identifier Sample.runtime (Told.handler false false false
        false true)
            Sample.systemGroups Sample.isPrivilegeGroup me d () _ _).
  - reflexivity.
  - left. reflexivity.
Defined.

(** ** [leave]: who may remove whom *)

Section LeaveMore.
Context (rt : Runtime).
Context {World : Type} (h : Handler World).
Context (slugify validator_escape : JsVal → string).

Lemma leave_validated_inv (caller : Caller.t) (d : Data.t) (w : World) :
  leave_validated rt h caller d w = true →
  ∃ s, answer h (groups_getGroupNameByGroupSlug (Data.slug d)) w = JStr s
       ∧ String.eqb s "" = false
       ∧ le_zero rt (Caller.uid caller) = false
       ∧ strict_eq_string (JStr s) "administrators"
         && same_parsed_uid rt (Caller.uid caller) (Data.uid d) = false.
Proof.
  unfold leave_validated.
  rewrite !andb_true_iff, !negb_true_iff.
  intros [[[Huid Htr] Hty] Hadm].
  destruct (answer h (groups_getGroupNameByGroupSlug (Data.slug d)) w)
    as [| | | | |s]; try discriminate.
  exists s. repeat split; try done.
  simpl in Htr. by apply negb_true_iff in Htr.
Qed.



(** X13.  The target's existence is tested only after every lookup of
    [leave] has been made: for a target the user directory does not know,
    a call past the opening guards asks for the group's record, the
    caller's two standings, the target's existence and the target's
    membership, and is then rejected with invalid-uid, whether the target
    is recorded as a member or not.  No command is performed. *)
Theorem leave_unknown_target (caller : Caller.t) (d : Data.t) (w : World) :
  let g := answer h (groups_getGroupNameByGroupSlug (Data.slug d)) w in
  let o := run h (leave rt slugify validator_escape caller (Some d)) w in
  leave_validated rt h caller d w = true →
  answer h (user_exists (Data.uid d)) w = false →
  result o = inl (Typed invalid_uid)
  ∧ calls o = leave_lookups caller d g
  ∧ final o = w.
Proof.
  intros g o Hv Hex. subst g o.
  destruct (leave_validated_inv caller d w Hv) as (s & Hg & Hne & Huid & Hadm).
  rewrite Hg in *.
  unfold leave, leave_lookups. simpl. rewrite Huid. simpl. rewrite Hg. simpl.
  rewrite Hne. simpl. simpl in Hadm. rewrite Hadm. simpl. rewrite Hex. done.
Qed.

(** X14.  What an admitted [leave] writes, in order: the directory's leave
    of the target; the creation of the group-leave notification, whose
    body carries the display name looked up after the member has left,
    whose key is built from the escaped group name and the target's
    identifier, and which is sent from the target, not from the caller;
    its delivery to the owners the group has once the notification exists;
    the group-leave audit record.  The first of these to fail ends the
    call with that failure, and what comes after it is not attempted. *)
Theorem leave_writes_in_order (caller : Caller.t) (d : Data.t) (w : World) :
  let g := answer h (groups_getGroupNameByGroupSlug (Data.slug d)) w in
  let o := run h (leave rt slugify validator_escape caller (Some d)) w in
  leave_validated rt h caller d w = true →
  answer h (user_exists (Data.uid d)) w = true →
  answer h (groups_isMember (Data.uid d) g) w = true →
  GroupData.disableLeave (answer h (groups_getGroupData g) w)
  && same_parsed_uid rt (Caller.uid caller) (Data.uid d) = false →
  same_parsed_uid rt (Caller.uid caller) (Data.uid d)
  || answer h (user_isAdministrator (Caller.uid caller)) w
  || answer h (groups_ownership_isOwner (Caller.uid caller) g) w = true →
  match execute h (groups_leave g (Data.uid d)) w with
  | (inl reason, w1) =>
      effects o = [groups_leave g (Data.uid d)]
      ∧ result o = inl (Collaborator reason) ∧ final o = w1
  | (inr _, w1) =>
      let displayname :=
        UserFields.displayname
          (answer h (user_getUserFields (Data.uid d) ["username"]) w1) in
      let n := leave_notification rt slugify validator_escape d g displayname in
      match execute h (notifications_create n) w1 with
      | (inl reason, w2) =>
          effects o = [groups_leave g (Data.uid d); notifications_create n]
          ∧ result o = inl (Collaborator reason) ∧ final o = w2
      | (inr n', w2) =>
          let push := notifications_push n' (answer h (groups_getOwners g) w2) in
          let record := events_log (audit_of caller d "group-leave" g) in
          match execute h push w2 with
          | (inl reason, w3) =>
              effects o = [groups_leave g (Data.uid d); notifications_create n; push]
              ∧ result o = inl (Collaborator reason) ∧ final o = w3
          | (inr _, w3) =>
              effects o = [groups_leave g (Data.uid d); notifications_create n;
                           push; record]
              ∧ result o = match (execute h record w3).1 with
                           | inl reason => inl (Collaborator reason)
                           | inr _ => inr ()
                           end
              ∧ final o = (execute h record w3).2
          end
      end
  end.
Proof.
  intros g o Hv Hex Hm Hdis Hmay. subst g o.
  destruct (leave_validated_inv caller d w Hv) as (s & Hg & Hne & Huid & Hadm).
  rewrite Hg in *.
  unfold leave, logGroupEvent, leave_notification, audit_of. simpl.
  rewrite Huid. simpl. rewrite Hg. simpl. rewrite Hne. simpl.
  simpl in Hadm. rewrite Hadm. simpl. rewrite Hex. simpl. rewrite Hm. simpl.
  rewrite Hdis. simpl. rewrite Hmay. simpl.
  destruct (execute h (groups_leave _ _) w) as [[r|[]] w1]; simpl; [done|].
  destruct (execute h (notifications_create _) w1) as [[r|n'] w2]; simpl; [done|].
  destruct (execute h (notifications_push _ _) w2) as [[r|[]] w3]; simpl; [done|].
  by destruct (execute h (events_log _) w3) as [[r|[]] w4].
Qed.
End LeaveMore.



(** The owner of "team" names a user the platform does not know. *)
Lemma leave_unknown_target_witness :
  result (run Sample.handler
            (leave Sample.runtime Sample.slugify Sample.validator_escape (Sample.caller 7)
                   (Sample.on "team" (JNum 1000))) Sample.world)
  = inl (Typed invalid_uid).
Proof.
  refine (proj1 (leave_unknown_target Sample.runtime Sample.handler Sample.slugify
            Sample.validator_escape (Sample.caller 7)
            (Data.mk JUndefined JUndefined JUndefined (JStr "team") (JNum 1000))
            Sample.world _ _)); reflexivity.
Defined.

(** The owner of "team" removes user 42: four writes, the notification
    naming "reader" and sent from user 42 to the owner, user 7. *)
Lemma leave_writes_in_order_witness :
  let d := Data.mk JUndefined JUndefined JUndefined (JStr "team") (JNum 42) in
  let n := leave_notification Sample.runtime Sample.slugify Sample.validator_escape d (JStr "team")
             (JStr "reader") in
  let o := run Sample.handler
             (leave Sample.runtime Sample.slugify Sample.validator_escape
                   (Sample.caller 7) (Some d))
             Sample.world in
  effects o = [ groups_leave (JStr "team") (JNum 42);
                notifications_create n;
                notifications_push n [JNum 7];
                events_log (audit_of (Sample.caller 7) d "group-leave" (JStr "team")) ]
  ∧ result o = inr ().
Proof.
  intros d n o.
  assert (H := leave_writes_in_order Sample.runtime Sample.handler Sample.slugify
                 Sample.validator_escape (Sample.caller 7) d Sample.world
                 eq_refl eq_refl eq_refl eq_refl eq_refl).
  exact (conj (proj1 H) (proj1 (proj2 H))).
Defined.

(** ** What no call writes *)

(** X15.  Every command of a call is within the remit of the operation
    called.  The slug is resolved once, when the call starts, and every
    command names the group it resolved to then; the directory command of
    [join], [leave], [grant] and [rescind] names the payload's target as
    the payload has it, that of a membership request the caller; every
    audit record carries the caller's identifier and address and the event
    of the operation; [update] writes no audit record; apart from [leave]
    no operation writes a notification, and the notification of [leave] is
    sent from the target. *)
Theorem commands_within_remit (rt : Runtime) {World : Type} (h : Handler World)
    (systemGroups ephemeralGroups : list string) (isPrivilegeGroup : JsVal → bool)
    (slugify validator_escape : JsVal → string)
    (op : Operation) (caller : Caller.t) (d : Data.t) (w : World) :
  let g := answer h (groups_getGroupNameByGroupSlug (Data.slug d)) w in
  let o := run h (invoke rt systemGroups ephemeralGroups isPrivilegeGroup slugify
                         validator_escape op caller (Some d)) w in
  Forall (within_remit rt slugify validator_escape op caller d g) (effects o).
Proof.
  intros g o. subst g o.
  destruct op; unfold invoke, create, update, _delete, join, leave, grant, rescind,
    payload, isOwner, logGroupEvent, mret, Prog_ret.
  all: paths.
  all: unfold effects; simpl.
  all: repeat (apply Forall_cons; split); try apply Forall_nil; simpl; eauto.
Qed.

(** ** The [create] of [src/api/groups.ts], up to the directory *)

Section CreateTsMore.
Context {World : Type} (h : Handler World).
Context (isPrivilegeGroup : JsVal → bool).

(** X17.  The [create] of [groups.ts] admits the calls the [create] of the
    API admits: a call that is not admitted runs alike in both, call for
    call, with the same typed error; an admitted call hands the directory
    the same payload in both, the request with its owner and system flag
    overwritten, and runs alike in both when the directory fails.  Nothing
    is said here of the audit call, which [groups.ts] does not await. *)
Theorem GroupsTs_create_same_admission (caller : Caller.t) (data : option Data.t)
    (w : World) :
  let o := run h (create isPrivilegeGroup caller data) w in
  let o' := run h (GroupsTs.create isPrivilegeGroup caller data) w in
  (create_admitted h isPrivilegeGroup caller data w = false → o' = o)
  ∧ (create_admitted h isPrivilegeGroup caller data w = true →
     ∃ d, data = Some d
          ∧ head (effects o') = Some (groups_create (forced caller d))
          ∧ head (effects o) = Some (groups_create (forced caller d))
          ∧ (∀ r, (execute h (groups_create (forced caller d)) w).1 = inl r →
                  o' = o)).
Proof.
  unfold create_admitted, create, GroupsTs.create, forced.
  destruct data as [d|]; simpl.
  - destruct (truthy (Caller.uid caller)); simpl; [|done].
    destruct (negb (typeof_string (Data.name d)) || isPrivilegeGroup (Data.name d));
      simpl; [done|].
    destruct (answer h (privileges_global_can _ _) w); simpl; [|done].
    split; [done|]. intros _. exists d. split; [done|].
    destruct (execute h (groups_create _) w) as [[r|g] w1]; simpl; [done|].
    repeat split; try done.
  - rewrite andb_false_r. split; [intros _|done].
    by destruct (truthy (Caller.uid caller)).
Qed.
End CreateTsMore.

(** A guest's request is refused alike by both; user 42's request reaches
    the directory with user 42 as owner in both. *)
Lemma GroupsTs_create_same_admission_witness :
  let chess := Data.mk (JStr "chess") (JNum 1) (JBool true) JUndefined JUndefined in
  run Sample.handler (GroupsTs.create Sample.isPrivilegeGroup (Sample.caller 0)
                                      (Some chess)) Sample.world
  = run Sample.handler (create Sample.isPrivilegeGroup (Sample.caller 0) (Some chess))
        Sample.world
  ∧ ∃ d, Some chess = Some d
         ∧ head (effects (run Sample.handler
                            (GroupsTs.create Sample.isPrivilegeGroup (Sample.caller 42)
                                             (Some chess)) Sample.world))
           = Some (groups_create (forced (Sample.caller 42) d)).
Proof.
  intros chess. split.
  - refine (proj1 (GroupsTs_create_same_admission Sample.handler
              Sample.isPrivilegeGroup (Sample.caller 0) (Some chess) Sample.world) _).
    reflexivity.
  - destruct (proj2 (GroupsTs_create_same_admission Sample.handler
              Sample.isPrivilegeGroup (Sample.caller 42) (Some chess) Sample.world)
              eq_refl) as (d & Hd & Heff & _).
    exists d. split; [exact Hd|exact Heff].
Defined.
